(** * smart-store: derived metrics and validation layer

    A shallow embedding of the computation layer of the smart-store
    front end: the tax-id and name formatters of [validation], the
    inventory status classifier of the product list, the opening balance
    of the cash view and the KPI engine of the dashboard.

    Conventions of the embedding.
    - Two readings of a JavaScript number are used.  Where a figure is
      divided, multiplied and compared (the status classifier of the
      product list and the scalar KPIs of the dashboard, in
      [Binary64]), a number is a [float]: IEEE 754 binary64 with its
      rounding, its signed zeros, its infinities and NaN.  Where a
      theorem is about which entries are selected, counted, ranked or
      added under a key (the cash view, the rankings, the maps, the
      stock level counters), a number is a [number]: an exact rational,
      or one of the three non-finite values, and the records carry
      finite numbers as [Qc]; no theorem there regroups or reorders a
      sum.
    - A JavaScript string is the list of its UTF-16 code units.
    - A [Map] is an association list in insertion order.
    - A [Date] is its local calendar reading; dates compare
      chronologically. *)

From Stdlib Require Import Floats.
From Stdlib Require Import String Ascii ZArith NArith QArith Qcanon Bool Lia List.
From Stdlib Require Import Qround Permutation Sorted.
Import ListNotations.

Set Implicit Arguments.

(* ================================================================== *)
(** ** Numbers, read exactly *)

Module JSNumber.

Inductive number : Set :=
| Fin (q : Qc)
| NaN
| PInf
| NInf.

Definition Qcltb (a b : Qc) : bool :=
  match (a ?= b)%Qc with Lt => true | _ => false end.

Definition Qcleb (a b : Qc) : bool :=
  match (a ?= b)%Qc with Gt => false | _ => true end.

Definition Qceqb (a b : Qc) : bool :=
  match (a ?= b)%Qc with Eq => true | _ => false end.

Definition ofZ (z : Z) : number := Fin (Q2Qc (inject_Z z)).

Definition zero : number := ofZ 0.

(** [x < y] *)
Definition ltb (x y : number) : bool :=
  match x, y with
  | NaN, _ | _, NaN => false
  | Fin a, Fin b => Qcltb a b
  | Fin _, PInf => true
  | Fin _, NInf => false
  | PInf, _ => false
  | NInf, NInf => false
  | NInf, _ => true
  end.

(** [x <= y] *)
Definition leb (x y : number) : bool :=
  match x, y with
  | NaN, _ | _, NaN => false
  | Fin a, Fin b => Qcleb a b
  | Fin _, PInf => true
  | Fin _, NInf => false
  | PInf, PInf => true
  | PInf, _ => false
  | NInf, _ => true
  end.

(** [x > y] and [x >= y] *)
Definition gtb (x y : number) : bool := ltb y x.
Definition geb (x y : number) : bool := leb y x.

(** [x === y] *)
Definition strictEq (x y : number) : bool :=
  match x, y with
  | Fin a, Fin b => Qceqb a b
  | PInf, PInf | NInf, NInf => true
  | _, _ => false
  end.

(** unary minus *)
Definition neg (x : number) : number :=
  match x with
  | Fin a => Fin (- a)
  | NaN => NaN
  | PInf => NInf
  | NInf => PInf
  end.

Definition add (x y : number) : number :=
  match x, y with
  | NaN, _ | _, NaN => NaN
  | Fin a, Fin b => Fin (a + b)
  | PInf, NInf | NInf, PInf => NaN
  | PInf, _ | _, PInf => PInf
  | NInf, _ | _, NInf => NInf
  end.

Definition sub (x y : number) : number := add x (neg y).

(** the infinity with the sign of [a], for a non-zero [a] *)
Definition signedInf (a : Qc) : number :=
  if Qcltb a 0 then NInf else PInf.

Definition mul (x y : number) : number :=
  match x, y with
  | NaN, _ | _, NaN => NaN
  | Fin a, Fin b => Fin (a * b)
  | Fin a, PInf | PInf, Fin a => if Qceqb a 0 then NaN else signedInf a
  | Fin a, NInf | NInf, Fin a => if Qceqb a 0 then NaN else signedInf (- a)
  | PInf, PInf | NInf, NInf => PInf
  | PInf, NInf | NInf, PInf => NInf
  end.

Definition div (x y : number) : number :=
  match x, y with
  | NaN, _ | _, NaN => NaN
  | Fin a, Fin b =>
      if Qceqb b 0 then (if Qceqb a 0 then NaN else signedInf a)
      else Fin (a / b)
  | Fin _, PInf | Fin _, NInf => zero
  | PInf, Fin b => if Qcltb b 0 then NInf else PInf
  | NInf, Fin b => if Qcltb b 0 then PInf else NInf
  | PInf, _ | NInf, _ => NaN
  end.

(** [Math.min(x, y)] *)
Definition min (x y : number) : number :=
  match x, y with
  | NaN, _ | _, NaN => NaN
  | _, _ => if ltb y x then y else x
  end.

(** [Number.isFinite] *)
Definition isFinite (x : number) : bool :=
  match x with Fin _ => true | _ => false end.

(** truthiness of a number: everything but zero and [NaN] *)
Definition truthy (x : number) : bool :=
  match x with
  | Fin a => negb (Qceqb a 0)
  | NaN => false
  | _ => true
  end.

(** [x || 0] where [x] may be [undefined] *)
Definition orZero (x : option number) : number :=
  match x with
  | Some v => if truthy v then v else zero
  | None => zero
  end.

End JSNumber.

Import JSNumber.

Declare Scope js_scope.
Delimit Scope js_scope with js.
Bind Scope js_scope with number.
Infix "+" := add : js_scope.
Infix "-" := sub : js_scope.
Infix "*" := mul : js_scope.
Infix "/" := div : js_scope.
Infix "<?" := ltb : js_scope.
Infix "<=?" := leb : js_scope.
Infix ">?" := gtb : js_scope.
Infix ">=?" := geb : js_scope.
Infix "===" := strictEq (at level 70, no associativity) : js_scope.

(* ================================================================== *)
(** ** Strings *)

Module JSString.

(** A string is the list of its UTF-16 code units. *)
Definition jsstring : Set := list N.

(** a literal of Basic Latin characters *)
Definition str (s : string) : jsstring :=
  map N_of_ascii (list_ascii_of_string s).

Definition isEmpty (s : jsstring) : bool :=
  match s with [] => true | _ => false end.

Fixpoint streq (a b : jsstring) : bool :=
  match a, b with
  | [], [] => true
  | x :: a', y :: b' => N.eqb x y && streq a' b'
  | _, _ => false
  end.

(** [\d] *)
Definition isDigit (c : N) : bool := (48 <=? c)%N && (c <=? 57)%N.

(** the number a digit stands for: [parseInt] of, or the numeric
    coercion of, a one-digit string *)
Definition digitValue (c : N) : Z := Z.of_N c - 48.

(** [s.replace(/\D/g, '')] *)
Definition stripNonDigits (s : jsstring) : jsstring := filter isDigit s.

(** [s.substring(a, b)] for [0 <= a <= b] *)
Definition substring (a b : nat) (s : jsstring) : jsstring :=
  firstn (b - a) (skipn a s).

(** [s] starts with [k] digits *)
Definition startsWithDigits (k : nat) (s : jsstring) : bool :=
  (k <=? length s)%nat && forallb isDigit (firstn k s).

(** [s.replace(/(\d{n})(\d)/, '$1' + sep + '$2')]: the leftmost place
    where [n + 1] digits follow each other gets [sep] after the first
    [n] of them. *)
Fixpoint replaceDigitsDigit (n : nat) (sep : jsstring) (s : jsstring)
  {struct s} : jsstring :=
  if startsWithDigits (S n) s then firstn n s ++ sep ++ skipn n s
  else match s with
       | [] => []
       | c :: r => c :: replaceDigitsDigit n sep r
       end.

(** [s] is [n] digits and then one or two digits, and nothing more *)
Definition isDigitsTail (n : nat) (s : jsstring) : bool :=
  forallb isDigit s &&
  ((length s =? n + 2)%nat || (length s =? n + 1)%nat).

(** [s.replace(/(\d{n})(\d{1,2})$/, '$1' + sep + '$2')] *)
Fixpoint replaceDigitsTail (n : nat) (sep : jsstring) (s : jsstring)
  {struct s} : jsstring :=
  if isDigitsTail n s then firstn n s ++ sep ++ skipn n s
  else match s with
       | [] => []
       | c :: r => c :: replaceDigitsTail n sep r
       end.

(** [/^(\d)\1{k}$/.test(s)]: a digit and [k] more copies of it *)
Definition isRepeatedDigit (k : nat) (s : jsstring) : bool :=
  match s with
  | [] => false
  | c :: r => isDigit c && (length r =? k)%nat && forallb (N.eqb c) r
  end.

(** White space and line terminators, as [trim] removes them. *)
Definition isWhiteSpace (c : N) : bool :=
  ((9 <=? c) && (c <=? 13) || (c =? 32) || (c =? 160) || (c =? 5760)
   || (8192 <=? c) && (c <=? 8202) || (c =? 8232) || (c =? 8233)
   || (c =? 8239) || (c =? 8287) || (c =? 12288) || (c =? 65279))%N.

Fixpoint trimStart (s : jsstring) : jsstring :=
  match s with
  | c :: r => if isWhiteSpace c then trimStart r else s
  | [] => []
  end.

Definition trim (s : jsstring) : jsstring :=
  rev (trimStart (rev (trimStart s))).

(** Case mapping of one code unit of Basic Latin or of the Latin-1
    Supplement; the other code units are left as they are (the Unicode
    tables belong to the runtime, not to the repository). *)
Definition lowerUnit (c : N) : N :=
  if ((65 <=? c) && (c <=? 90))%N then (c + 32)%N
  else if ((192 <=? c) && (c <=? 222) && negb (c =? 215))%N then (c + 32)%N
  else c.

Definition toLowerCase (s : jsstring) : jsstring := map lowerUnit s.

Definition upperUnit (c : N) : jsstring :=
  if ((97 <=? c) && (c <=? 122))%N then [(c - 32)%N]
  else if ((224 <=? c) && (c <=? 254) && negb (c =? 247))%N then [(c - 32)%N]
  else if (c =? 223)%N then [83%N; 83%N]
  else if (c =? 255)%N then [376%N]
  else if (c =? 181)%N then [924%N]
  else [c].

Definition toUpperCase (s : jsstring) : jsstring := flat_map upperUnit s.

(** [s.charAt(0)] and [s.slice(1)] *)
Definition charAt0 (s : jsstring) : jsstring := firstn 1 s.
Definition slice1 (s : jsstring) : jsstring := skipn 1 s.

(** [s.split(sep)] for a one-unit separator: never an empty list. *)
Fixpoint split (sep : N) (s : jsstring) : list jsstring :=
  match s with
  | [] => [[]]
  | c :: r =>
      if N.eqb c sep then [] :: split sep r
      else match split sep r with
           | w :: ws => (c :: w) :: ws
           | [] => [[c]]
           end
  end.

(** [s.replace(/(\d{n})(\d)/, pre + '$1' + sep + '$2')]: as
    [replaceDigitsDigit], with text put in front of the digits too. *)
Fixpoint replaceDigitsDigitWith (n : nat) (pre sep : jsstring) (s : jsstring)
  {struct s} : jsstring :=
  if startsWithDigits (S n) s then pre ++ firstn n s ++ sep ++ skipn n s
  else match s with
       | [] => []
       | c :: r => c :: replaceDigitsDigitWith n pre sep r
       end.

(** [a < b] on strings: by code units, a proper prefix first. *)
Fixpoint strLtb (a b : jsstring) : bool :=
  match a, b with
  | _, [] => false
  | [], _ :: _ => true
  | x :: a', y :: b' =>
      if (x <? y)%N then true
      else if (y <? x)%N then false
      else strLtb a' b'
  end.

End JSString.

Import JSString.

(* ================================================================== *)
(** ** Regular expressions over code units *)

Module Regex.

(** The patterns the repository needs of the language of [RegExp]: a
    class of code units, one pattern after the other, a choice and a
    repetition; [Void] matches nothing and [Eps] the empty string. *)
Inductive t : Type :=
| Void
| Eps
| Class (p : N -> bool)
| Seq (a b : t)
| Alt (a b : t)
| Star (a : t).

(** [a+] *)
Definition Plus (a : t) : t := Seq a (Star a).

(** [a] matches the empty string *)
Fixpoint nullable (r : t) : bool :=
  match r with
  | Void => false
  | Eps => true
  | Class _ => false
  | Seq a b => nullable a && nullable b
  | Alt a b => nullable a || nullable b
  | Star _ => true
  end.

(** what is left of [r] after the code unit [c] *)
Fixpoint derivative (c : N) (r : t) : t :=
  match r with
  | Void => Void
  | Eps => Void
  | Class p => if p c then Eps else Void
  | Seq a b =>
      if nullable a then Alt (Seq (derivative c a) b) (derivative c b)
      else Seq (derivative c a) b
  | Alt a b => Alt (derivative c a) (derivative c b)
  | Star a => Seq (derivative c a) (Star a)
  end.

(** [/^r$/.test(s)] *)
Definition test (r : t) (s : jsstring) : bool :=
  nullable (fold_left (fun r c => derivative c r) s r).

End Regex.

(* ================================================================== *)
(** ** validation: names and tax ids *)

Module Validation.

Definition lowercasePrefixes : list jsstring :=
  map str ["e"; "da"; "de"; "di"; "do"; "dos"; "du"; "das"]%string.

(** [specialCases]: the own properties of the object literal. *)
Definition specialCases : list (jsstring * jsstring) :=
  [ (str "ii", str "II"); (str "iii", str "III"); (str "iv", str "IV");
    (str "v", str "V"); (str "x", str "X"); (str "mc", str "Mc");
    (str "mac", str "Mac"); (str "o'", str "O'") ].

(** What a property read of [specialCases] can give: one of its own
    strings, or a member the literal inherits from [Object.prototype]
    (a built-in function, or the prototype itself under [__proto__]). *)
Inductive propValue : Set :=
| PString (s : jsstring)
| PNative (name : jsstring)
| PObjectPrototype.

Definition objectPrototypeMethods : list jsstring :=
  map str [ "__defineGetter__"; "__defineSetter__"; "hasOwnProperty";
            "__lookupGetter__"; "__lookupSetter__"; "isPrototypeOf";
            "propertyIsEnumerable"; "toString"; "valueOf";
            "toLocaleString" ]%string.

Fixpoint assoc (key : jsstring) (l : list (jsstring * jsstring))
  : option jsstring :=
  match l with
  | [] => None
  | (k, v) :: r => if streq k key then Some v else assoc key r
  end.

(** [l.includes(key)] *)
Definition includes (key : jsstring) (l : list jsstring) : bool :=
  existsb (streq key) l.

(** [specialCases[key]]; [None] is [undefined]. *)
Definition getSpecialCase (key : jsstring) : option propValue :=
  match assoc key specialCases with
  | Some v => Some (PString v)
  | None =>
      if streq key (str "constructor") then Some (PNative (str "Object"))
      else if streq key (str "__proto__") then Some PObjectPrototype
      else if includes key objectPrototypeMethods then Some (PNative key)
      else None
  end.

(** truthiness of a property read *)
Definition truthyProp (v : option propValue) : bool :=
  match v with
  | Some (PString s) => negb (isEmpty s)
  | Some _ => true
  | None => false
  end.

(** the string [join] makes of an element *)
Definition propToString (v : propValue) : jsstring :=
  match v with
  | PString s => s
  | PNative name => str "function " ++ name ++ str "() { [native code] }"
  | PObjectPrototype => str "[object Object]"
  end.

(** [v !== ''] *)
Definition notEmptyString (v : propValue) : bool :=
  match v with
  | PString s => negb (isEmpty s)
  | _ => true
  end.

(** the callback of [map] in [formatName] *)
Definition formatWord (word : jsstring) (index : nat) : propValue :=
  let lowerWord := toLowerCase word in
  let unlisted :=
    if includes lowerWord lowercasePrefixes && negb (index =? 0)%nat
    then PString lowerWord
    else PString (toUpperCase (charAt0 word) ++ slice1 word) in
  match getSpecialCase lowerWord with
  | Some v => if truthyProp (Some v) then v else unlisted
  | None => unlisted
  end.

Fixpoint mapIndexFrom {A B : Type} (f : A -> nat -> B) (i : nat) (l : list A)
  : list B :=
  match l with
  | [] => []
  | x :: r => f x i :: mapIndexFrom f (S i) r
  end.

(** [l.map((x, index) => f x index)] *)
Definition mapIndex {A B : Type} (f : A -> nat -> B) (l : list A) : list B :=
  mapIndexFrom f 0 l.

(** [l.join(sep)] *)
Fixpoint join (sep : jsstring) (l : list propValue) : jsstring :=
  match l with
  | [] => []
  | [v] => propToString v
  | v :: r => propToString v ++ sep ++ join sep r
  end.

(** [formatName(name)]; [None] is an argument that is not a string. *)
Definition formatName (name : option jsstring) : jsstring :=
  match name with
  | None => []
  | Some name =>
      if isEmpty name then []
      else
        join (str " ")
          (filter notEmptyString
             (mapIndex formatWord (split 32 (toLowerCase (trim name)))))
  end.

(** [formatRegister(value)] *)
Definition formatRegister (value : jsstring) : jsstring :=
  if isEmpty value then []
  else
    let cleanValue := stripNonDigits value in
    if (length cleanValue <=? 11)%nat then
      replaceDigitsTail 3 (str "-")
        (replaceDigitsDigit 3 (str ".")
           (replaceDigitsDigit 3 (str ".") cleanValue))
    else
      replaceDigitsTail 4 (str "-")
        (replaceDigitsDigit 3 (str "/")
           (replaceDigitsDigit 3 (str ".")
              (replaceDigitsDigit 2 (str ".")
                 (substring 0 14 cleanValue)))).

(** The number read at index [i]: [parseInt(s.substring(i, i + 1))],
    [parseInt(s.charAt(i))] and [s.charAt(i) * w] alike.  The strings
    read this way have passed the length test and hold digits only, so
    the index is in range; [0] stands in for the cases never reached. *)
Definition digitAt (s : jsstring) (i : nat) : Z :=
  match nth_error s i with
  | Some c => digitValue c
  | None => 0
  end.

(** [for (let i = 1; i <= n; i++) sum += digit(i - 1) * (top - i)] *)
Definition cpfSum (cpf : jsstring) (n : nat) (top : Z) : Z :=
  fold_left
    (fun sum i => sum + digitAt cpf (i - 1) * (top - Z.of_nat i))%Z
    (List.seq 1 n) 0%Z.

(** [remainder = (sum * 10) % 11; if (remainder === 10 || remainder === 11)
    remainder = 0] *)
Definition cpfRemainder (sum : Z) : Z :=
  let remainder := Z.rem (sum * 10) 11 in
  if (remainder =? 10)%Z || (remainder =? 11)%Z then 0%Z else remainder.

Definition validateCPF (cpf : jsstring) : bool :=
  let cpf := stripNonDigits cpf in
  if negb (length cpf =? 11)%nat || isRepeatedDigit 10 cpf then false
  else
    if negb (cpfRemainder (cpfSum cpf 9 11) =? digitAt cpf 9)%Z then false
    else
      if negb (cpfRemainder (cpfSum cpf 10 12) =? digitAt cpf 10)%Z then false
      else true.

(** One turn of the loop of [validateCNPJ]:
    [sum += numbers.charAt(size - i) * pos--; if (pos < 2) pos = 9]. *)
Definition cnpjStep (numbers : jsstring) (size : nat)
  (st : Z * Z) (i : nat) : Z * Z :=
  let '(sum, pos) := st in
  let sum := (sum + digitAt numbers (size - i) * pos)%Z in
  let pos := (pos - 1)%Z in
  (sum, if (pos <? 2)%Z then 9%Z else pos).

(** [for (let i = size; i >= 1; i--) ...] from [sum = 0], [pos = size - 7] *)
Definition cnpjSum (numbers : jsstring) (size : nat) : Z :=
  fst (fold_left (cnpjStep numbers size) (rev (List.seq 1 size))
         (0%Z, (Z.of_nat size - 7)%Z)).

(** [sum % 11 < 2 ? 0 : 11 - (sum % 11)] *)
Definition cnpjResult (sum : Z) : Z :=
  if (Z.rem sum 11 <? 2)%Z then 0%Z else (11 - Z.rem sum 11)%Z.

Definition validateCNPJ (cnpj : jsstring) : bool :=
  let cnpj := stripNonDigits cnpj in
  if negb (length cnpj =? 14)%nat || isRepeatedDigit 13 cnpj then false
  else
    let size := (length cnpj - 2)%nat in
    let numbers := substring 0 size cnpj in
    let digits := skipn size cnpj in
    if negb (cnpjResult (cnpjSum numbers size) =? digitAt digits 0)%Z
    then false
    else
      let size := (size + 1)%nat in
      let numbers := substring 0 size cnpj in
      if negb (cnpjResult (cnpjSum numbers size) =? digitAt digits 1)%Z
      then false
      else true.

Definition validateRegister (value : jsstring) : bool :=
  let cleanValue := stripNonDigits value in
  if (length cleanValue =? 0)%nat then true
  else if (length cleanValue =? 11)%nat then validateCPF cleanValue
  else if (length cleanValue =? 14)%nat then validateCNPJ cleanValue
  else false.

(** [\[a-zA-ZÀ-ÿ\s'-\]] *)
Definition isNameUnit (c : N) : bool :=
  ((97 <=? c) && (c <=? 122) || (65 <=? c) && (c <=? 90)
   || (192 <=? c) && (c <=? 255) || isWhiteSpace c
   || (c =? 39) || (c =? 45))%N.

(** [/\s{2,}/.test(s)] *)
Fixpoint hasWhiteSpaceRun (s : jsstring) : bool :=
  match s with
  | a :: (b :: _) as r => (isWhiteSpace a && isWhiteSpace b) || hasWhiteSpaceRun r
  | _ => false
  end.

Definition validateName (name : jsstring) : bool :=
  if isEmpty name then false
  else
    let trimmed := trim name in
    if (length trimmed <? 3)%nat then false
    else if (100 <? length trimmed)%nat then false
    else if negb (negb (isEmpty trimmed) && forallb isNameUnit trimmed)
         then false
    else if hasWhiteSpaceRun trimmed then false
    else true.

Definition validatePhone (phone : jsstring) : bool :=
  if isEmpty phone then true
  else
    let cleanedPhone := stripNonDigits phone in
    if negb (negb (isEmpty cleanedPhone) && forallb isDigit cleanedPhone)
    then false
    else if (length cleanedPhone <? 10)%nat || (11 <? length cleanedPhone)%nat
         then false
    else
      let ddd := substring 0 2 cleanedPhone in
      if strLtb ddd (str "11") || strLtb (str "99") ddd then false
      else if isRepeatedDigit 9 cleanedPhone || isRepeatedDigit 10 cleanedPhone
           then false
      else true.

Definition formatPhone (phone : jsstring) : jsstring :=
  if isEmpty phone then []
  else
    let cleaned := substring 0 11 (stripNonDigits phone) in
    if (length cleaned <=? 10)%nat then
      replaceDigitsDigit 4 (str "-")
        (replaceDigitsDigitWith 2 (str "(") (str ") ") cleaned)
    else
      replaceDigitsDigit 5 (str "-")
        (replaceDigitsDigitWith 2 (str "(") (str ") ") cleaned).

(** [/[^\s@]/] *)
Definition notSpaceOrAt (c : N) : bool :=
  negb (isWhiteSpace c || (c =? 64)%N).

(** [/^[^\s@]+@[^\s@]+\.[^\s@]+$/] *)
Definition emailRegex : Regex.t :=
  Regex.Seq (Regex.Plus (Regex.Class notSpaceOrAt))
    (Regex.Seq (Regex.Class (N.eqb 64))
       (Regex.Seq (Regex.Plus (Regex.Class notSpaceOrAt))
          (Regex.Seq (Regex.Class (N.eqb 46))
             (Regex.Plus (Regex.Class notSpaceOrAt))))).

Definition validateEmail (email : jsstring) : bool :=
  if isEmpty email then false
  else Regex.test emailRegex (trim email).

End Validation.

Import Validation.

(* ================================================================== *)
(** ** Dates *)

Module Date.

(** A date, read in local time: [getFullYear()], [getMonth()] (from 0),
    [getDate()] and the milliseconds since local midnight. *)
Record t : Set := mk {
  getFullYear : Z;
  getMonth : Z;
  getDate : Z;
  msOfDay : Z
}.

Definition compare (a b : t) : comparison :=
  match (getFullYear a ?= getFullYear b)%Z with
  | Eq =>
      match (getMonth a ?= getMonth b)%Z with
      | Eq =>
          match (getDate a ?= getDate b)%Z with
          | Eq => (msOfDay a ?= msOfDay b)%Z
          | c => c
          end
      | c => c
      end
  | c => c
  end.

Definition ltb (a b : t) : bool :=
  match compare a b with Lt => true | _ => false end.
Definition leb (a b : t) : bool :=
  match compare a b with Gt => false | _ => true end.
Definition geb (a b : t) : bool := leb b a.

(** The constructor reads a year from 0 to 99 as a year of the 1900s. *)
Definition fullYear (y : Z) : Z :=
  if ((0 <=? y) && (y <=? 99))%Z then (1900 + y)%Z else y.

Definition isLeapYear (y : Z) : bool :=
  ((y mod 4 =? 0) && (negb (y mod 100 =? 0) || (y mod 400 =? 0)))%Z.

(** days of month [m] (from 0) of year [y] *)
Definition daysIn (y m : Z) : Z :=
  if (m =? 1)%Z then (if isLeapYear y then 29%Z else 28%Z)
  else if ((m =? 3) || (m =? 5) || (m =? 8) || (m =? 10))%Z then 30%Z
  else 31%Z.

(** [new Date(year, monthIndex, 1)] *)
Definition firstOfMonth (year monthIndex : Z) : t :=
  mk (fullYear year + monthIndex / 12)%Z (monthIndex mod 12)%Z 1 0.

(** [new Date(year, monthIndex, 0, 23, 59, 59, 999)]: day 0 is the last
    day of the month before [monthIndex]. *)
Definition endOfMonthBefore (year monthIndex : Z) : t :=
  let y := (fullYear year + (monthIndex - 1) / 12)%Z in
  let m := ((monthIndex - 1) mod 12)%Z in
  mk y m (daysIn y m) 86399999.

(** The days from 1 January 1970 to day [d] of month [m] (from 0) of
    year [y], on the Gregorian calendar. *)
Definition daysFromCivil (y m d : Z) : Z :=
  let y' := if (m <=? 1)%Z then (y - 1)%Z else y in
  let era := (y' / 400)%Z in
  let yoe := (y' - era * 400)%Z in
  let mp := if (m <=? 1)%Z then (m + 10)%Z else (m - 2)%Z in
  let doy := ((153 * mp + 2) / 5 + d - 1)%Z in
  let doe := (yoe * 365 + yoe / 4 - yoe / 100 + doy)%Z in
  (era * 146097 + doe - 719468)%Z.

(** [getTime()]: the milliseconds since the epoch, counted on the local
    calendar (the offset of the time zone is left out). *)
Definition getTime (a : t) : Z :=
  (daysFromCivil (getFullYear a) (getMonth a) (getDate a) * 86400000
   + msOfDay a)%Z.

End Date.

(* ================================================================== *)
(** ** types.ts *)

Inductive ProductStatus : Set := RUPTURA | RISCO | SEGURANCA | EXCESSO.

Inductive TransactionStatus : Set := PENDING | PAID.

Inductive TransactionType : Set := INCOME | EXPENSE.

Inductive TransactionCategory : Set :=
| RENT | WATER | ELECTRICITY | INTERNET | TAXES | SALARY
| PRODUCT_PURCHASE | SERVICE_REVENUE | SALES_REVENUE | SERVICE_COST | OTHER.

Scheme Equality for TransactionStatus.
Scheme Equality for TransactionType.
Scheme Equality for TransactionCategory.

Module Product.
Record t : Set := mk {
  id : jsstring;
  name : jsstring;
  cost : Qc;
  stock : Qc
}.
End Product.

Module Service.
Record t : Set := mk {
  id : jsstring;
  name : jsstring
}.
End Service.

Inductive SaleItemType : Set := TProduct | TService.

Inductive Item : Set :=
| IProduct (p : Product.t)
| IService (s : Service.t).

Module SaleItem.
Record t : Set := mk {
  item : Item;
  quantity : Qc;
  type : SaleItemType
}.

(** [saleItem.item.id] *)
Definition itemId (i : t) : jsstring :=
  match item i with
  | IProduct p => Product.id p
  | IService s => Service.id s
  end.
End SaleItem.

Module TicketSale.
Record t : Set := mk {
  items : list SaleItem.t;
  total : Qc;
  timestamp : Date.t
}.
End TicketSale.

Module CashTransaction.
Record t : Set := mk {
  amount : Qc;
  type : TransactionType;
  category : TransactionCategory;
  status : TransactionStatus;
  timestamp : Date.t
}.
End CashTransaction.

Module StockLevelSummary.
Record t : Set := mk {
  ruptura : Z;
  risco : Z;
  seguranca : Z;
  excesso : Z
}.
End StockLevelSummary.

Module TopProduct.
Record t : Set := mk {
  id : jsstring;
  name : jsstring;
  quantitySold : number;
  currentStock : number;
  turnoverRatio : option number
}.
End TopProduct.

Module SalesPeak.
Record t : Set := mk {
  date : jsstring;
  total : number
}.
End SalesPeak.

Module CashSummary.
Record t : Set := mk {
  balance : number;
  openingBalance : number;
  income : number;
  serviceRevenue : number;
  salesRevenue : number;
  expense : number;
  fixedCosts : number;
  variableCosts : number
}.
End CashSummary.

(** A competency is the value of the month picker: [Some (year, month)]
    for ["YYYY-MM"], [None] for the empty string of a cleared picker. *)
Definition competency : Set := option (Z * Z).

(* ================================================================== *)
(** ** Map and Array helpers *)

Module JSMap.

(** A [Map<string, number>]: the entries in insertion order. *)
Definition t : Set := list (jsstring * number).

Fixpoint get (key : jsstring) (m : t) : option number :=
  match m with
  | [] => None
  | (k, v) :: r => if streq k key then Some v else get key r
  end.

Fixpoint set (key : jsstring) (v : number) (m : t) : t :=
  match m with
  | [] => [(key, v)]
  | (k, x) :: r =>
      if streq k key then (k, v) :: r else (k, x) :: set key v r
  end.

End JSMap.

Module JSArray.

Local Open Scope js_scope.

Section Sort.
Variable A : Type.
Variable compareFn : A -> A -> number.

(** [x] goes after [y] only when [compareFn x y > 0]. *)
Fixpoint insertSorted (x : A) (l : list A) : list A :=
  match l with
  | [] => [x]
  | y :: r =>
      if compareFn x y >? (ofZ 0) then y :: insertSorted x r
      else x :: y :: r
  end.

(** [l.sort(compareFn)]: the sort of the language is stable; an element
    is put in front of the sorted rest of the array. *)
Definition sort (l : list A) : list A := fold_right insertSorted [] l.

End Sort.

(** [l.slice(0, n)] *)
Definition slice0 {A : Type} (n : nat) (l : list A) : list A := firstn n l.

End JSArray.

(** [productSalesMap]: the quantity sold of each product over some
    tickets, as both views build it. *)
Definition productSalesMap (salesThisMonth : list TicketSale.t) : JSMap.t :=
  fold_left
    (fun m sale =>
       fold_left
         (fun m item =>
            match SaleItem.type item with
            | TProduct =>
                JSMap.set (SaleItem.itemId item)
                  (orZero (JSMap.get (SaleItem.itemId item) m)
                   + Fin (SaleItem.quantity item))%js
                  m
            | TService => m
            end)
         (TicketSale.items sale) m)
    salesThisMonth [].

(* ================================================================== *)
(** ** Products: productsWithMetrics *)

Module Products.

Local Open Scope js_scope.

(** The status the [products.map] callback gives: [stock] is [p.stock],
    [soldQty] the month's quantity from [productSalesMap] and [today]
    is [now.getDate()]. *)
Definition productStatus (stock soldQty today : number) : ProductStatus :=
  if stock <=? (ofZ 0) then RUPTURA
  else if soldQty >? (ofZ 0) then
    let dailySales := soldQty / today in
    if dailySales >? (ofZ 0) then
      let daysOfStock := stock / dailySales in
      if daysOfStock <=? (ofZ 7) then RISCO
      else if daysOfStock <=? (ofZ 30) then SEGURANCA
      else EXCESSO
    else EXCESSO
  else EXCESSO.

Record ProductWithMetrics : Set := mkMetrics {
  product : Product.t;
  status : ProductStatus;
  turnover : number
}.

Definition productsWithMetrics (now : Date.t)
  (products : list Product.t) (ticketSales : list TicketSale.t)
  : list ProductWithMetrics :=
  let startOfMonth :=
    Date.firstOfMonth (Date.getFullYear now) (Date.getMonth now) in
  let salesThisMonth :=
    filter (fun sale => Date.geb (TicketSale.timestamp sale) startOfMonth)
      ticketSales in
  let productSalesMap := productSalesMap salesThisMonth in
  let today := (ofZ (Date.getDate now)) in
  map (fun p =>
         let soldQty := orZero (JSMap.get (Product.id p) productSalesMap) in
         let turnover :=
           if Fin (Product.stock p) >? (ofZ 0)
           then soldQty / Fin (Product.stock p) else (ofZ 0) in
         mkMetrics p (productStatus (Fin (Product.stock p)) soldQty today)
           turnover)
    products.

End Products.

(* ================================================================== *)
(** ** Cash: the opening balance of the summary *)

Module Cash.

Local Open Scope js_scope.

(** the callback of [previousTransactions.reduce] *)
Definition addPaid (balance : number) (t : CashTransaction.t) : number :=
  match CashTransaction.status t with
  | PAID =>
      balance + (match CashTransaction.type t with
                 | INCOME => Fin (CashTransaction.amount t)
                 | EXPENSE => neg (Fin (CashTransaction.amount t))
                 end)
  | PENDING => balance
  end.

Definition openingBalance (transactions : list CashTransaction.t)
  (c : competency) : number :=
  match c with
  | None => (ofZ 0)
  | Some (year, month) =>
      let competencyStartDate := Date.firstOfMonth year (month - 1) in
      let previousTransactions :=
        filter
          (fun t => Date.ltb (CashTransaction.timestamp t) competencyStartDate)
          transactions in
      fold_left addPaid previousTransactions (ofZ 0)
  end.

(** [transactionsForCompetency] *)
Definition transactionsForCompetency (transactions : list CashTransaction.t)
  (c : competency) : list CashTransaction.t :=
  match c with
  | None => []
  | Some (year, month) =>
      filter
        (fun t =>
           ((Date.getFullYear (CashTransaction.timestamp t) =? year)
            && (Date.getMonth (CashTransaction.timestamp t) + 1 =? month))%Z)
        transactions
  end.

(** [filteredTransactions]; a filter set to ['All'] is [None]. *)
Definition filteredTransactions (transactions : list CashTransaction.t)
  (c : competency) (typeFilter : option TransactionType)
  (statusFilter : option TransactionStatus) : list CashTransaction.t :=
  let result := transactionsForCompetency transactions c in
  let result :=
    match typeFilter with
    | Some ty =>
        filter (fun t => TransactionType_beq (CashTransaction.type t) ty)
          result
    | None => result
    end in
  let result :=
    match statusFilter with
    | Some st =>
        filter (fun t => TransactionStatus_beq (CashTransaction.status t) st)
          result
    | None => result
    end in
  JSArray.sort
    (fun a b =>
       ofZ (Date.getTime (CashTransaction.timestamp b))
       - ofZ (Date.getTime (CashTransaction.timestamp a)))
    result.

(** [l.reduce((sum, t) => sum + t.amount, 0)] *)
Definition sumAmounts (l : list CashTransaction.t) : number :=
  fold_left (fun sum t => sum + Fin (CashTransaction.amount t)) l (ofZ 0).

Definition fixedCostCategories : list TransactionCategory :=
  [RENT; WATER; ELECTRICITY; INTERNET; TAXES; SALARY; OTHER].

Definition variableCostCategories : list TransactionCategory :=
  [SERVICE_COST; PRODUCT_PURCHASE].

(** [summary] *)
Definition summary (transactions : list CashTransaction.t) (c : competency)
  : CashSummary.t :=
  match c with
  | None =>
      CashSummary.mk (ofZ 0) (ofZ 0) (ofZ 0) (ofZ 0) (ofZ 0) (ofZ 0) (ofZ 0)
        (ofZ 0)
  | Some _ =>
      let openingBalance := openingBalance transactions c in
      let paidTransactionsThisMonth :=
        filter
          (fun t => TransactionStatus_beq (CashTransaction.status t) PAID)
          (transactionsForCompetency transactions c) in
      let incomeTransactions :=
        filter (fun t => TransactionType_beq (CashTransaction.type t) INCOME)
          paidTransactionsThisMonth in
      let serviceRevenue :=
        sumAmounts
          (filter
             (fun t =>
                TransactionCategory_beq (CashTransaction.category t)
                  SERVICE_REVENUE)
             incomeTransactions) in
      let salesRevenue :=
        sumAmounts
          (filter
             (fun t =>
                TransactionCategory_beq (CashTransaction.category t)
                  SALES_REVENUE)
             incomeTransactions) in
      let totalIncome := sumAmounts incomeTransactions in
      let expenseTransactions :=
        filter (fun t => TransactionType_beq (CashTransaction.type t) EXPENSE)
          paidTransactionsThisMonth in
      let fixedCosts :=
        sumAmounts
          (filter
             (fun t =>
                existsb (TransactionCategory_beq (CashTransaction.category t))
                  fixedCostCategories)
             expenseTransactions) in
      let variableCosts :=
        sumAmounts
          (filter
             (fun t =>
                existsb (TransactionCategory_beq (CashTransaction.category t))
                  variableCostCategories)
             expenseTransactions) in
      let totalExpense := sumAmounts expenseTransactions in
      CashSummary.mk (openingBalance + totalIncome - totalExpense)
        openingBalance totalIncome serviceRevenue salesRevenue totalExpense
        fixedCosts variableCosts
  end.

(** *** The pages of the table *)

Definition recordsPerPage : nat := 15.

(** [l.slice(a, b)] for [0 <= a <= b] *)
Definition slice {A : Type} (a b : nat) (l : list A) : list A :=
  firstn (b - a) (skipn a l).

(** [currentRecords]: the records of page [currentPage] (from 1) *)
Definition currentRecords {A : Type} (records : list A) (currentPage : nat)
  : list A :=
  let indexOfLastRecord := (currentPage * recordsPerPage)%nat in
  let indexOfFirstRecord := (indexOfLastRecord - recordsPerPage)%nat in
  slice indexOfFirstRecord indexOfLastRecord records.

(** [Math.ceil(records.length / recordsPerPage)] *)
Definition nPages {A : Type} (records : list A) : nat :=
  Z.to_nat (Qceiling (Z.of_nat (length records) # Pos.of_nat recordsPerPage)).

Definition nextPage (currentPage nPages : nat) : nat :=
  if (currentPage <? nPages)%nat then (currentPage + 1)%nat else currentPage.

Definition prevPage (currentPage : nat) : nat :=
  if (1 <? currentPage)%nat then (currentPage - 1)%nat else currentPage.

End Cash.

(* ================================================================== *)
(** ** Dashboard: the month, the rankings and the stock level summary *)

Module Dashboard.

Local Open Scope js_scope.

Section Engine.

(** [new Date(ts).toLocaleDateString('pt-BR', ...)]: the text of the
    calendar day, a service of the runtime. *)
Variable toLocaleDateString : Date.t -> jsstring.

Variable transactions : list CashTransaction.t.
Variable ticketSales : list TicketSale.t.
Variable products : list Product.t.
Variable c : competency.
Variable now : Date.t.

(** [None] is the invalid date a cleared picker leads to. *)
Definition startOfMonth : option Date.t :=
  match c with
  | Some (year, month) => Some (Date.firstOfMonth year (month - 1))
  | None => None
  end.

Definition endOfMonth : option Date.t :=
  match c with
  | Some (year, month) => Some (Date.endOfMonthBefore year month)
  | None => None
  end.

(** [d >= startOfMonth && d <= endOfMonth] *)
Definition inMonth (d : Date.t) : bool :=
  match startOfMonth, endOfMonth with
  | Some s, Some e => Date.geb d s && Date.leb d e
  | _, _ => false
  end.

Definition salesThisMonth : list TicketSale.t :=
  filter (fun sale => inMonth (TicketSale.timestamp sale)) ticketSales.

Definition transactionsThisMonth : list CashTransaction.t :=
  filter (fun t => inMonth (CashTransaction.timestamp t)) transactions.

Definition isCurrentMonth : bool :=
  match c with
  | Some (year, month) =>
      ((Date.getFullYear now =? year) && (Date.getMonth now =? month - 1))%Z
  | None => false
  end.

Definition daysInMonth : number :=
  match endOfMonth with
  | Some e => (ofZ (Date.getDate e))
  | None => NaN
  end.

Definition daysPassed : number :=
  if isCurrentMonth then JSNumber.min (ofZ (Date.getDate now)) daysInMonth
  else daysInMonth.

(** *** Top and low performing products *)

Definition salesMap : JSMap.t := productSalesMap salesThisMonth.

(** [products.find(p => p.id === productId)] *)
Definition findProduct (productId : jsstring) : option Product.t :=
  find (fun p => streq (Product.id p) productId) products.

Definition top10SoldProducts : list TopProduct.t :=
  JSArray.slice0 10
    (JSArray.sort
       (fun a b => TopProduct.quantitySold b - TopProduct.quantitySold a)
       (map
          (fun '(productId, quantitySold) =>
             TopProduct.mk productId
               (match findProduct productId with
                | Some p =>
                    if isEmpty (Product.name p) then str "N/A"
                    else Product.name p
                | None => str "N/A"
                end)
               quantitySold
               (orZero
                  (option_map (fun p => Fin (Product.stock p))
                     (findProduct productId)))
               None)
          salesMap)).

(** [a.turnoverRatio!] *)
Definition ratioOf (a : TopProduct.t) : number :=
  match TopProduct.turnoverRatio a with
  | Some r => r
  | None => NaN
  end.

Definition top10LowestTurnoverProducts : list TopProduct.t :=
  JSArray.slice0 10
    (JSArray.sort (fun a b => ratioOf a - ratioOf b)
       (map
          (fun p =>
             TopProduct.mk (Product.id p) (Product.name p)
               (orZero (JSMap.get (Product.id p) salesMap))
               (Fin (Product.stock p))
               (Some (orZero (JSMap.get (Product.id p) salesMap)
                      / Fin (Product.stock p))))
          (filter (fun p => Fin (Product.stock p) >? (ofZ 0)) products))).

(** *** Stock level summary *)

(** The counter the [products.forEach] callback increments, named by the
    status it stands for. *)
Definition stockLevelStatus (stock soldQty daysPassed daysInMonth : number)
  : ProductStatus :=
  if stock === (ofZ 0) then RUPTURA
  else if soldQty >? (ofZ 0) then
    let projectedMonthlySales := (soldQty / daysPassed) * daysInMonth in
    let dailySales := projectedMonthlySales / daysInMonth in
    let daysOfStock := stock / dailySales in
    if daysOfStock <=? (ofZ 7) then RISCO
    else if daysOfStock <=? (ofZ 30) then SEGURANCA
    else EXCESSO
  else EXCESSO.

Definition increment (s : StockLevelSummary.t) (st : ProductStatus)
  : StockLevelSummary.t :=
  let '(StockLevelSummary.mk ru ri se ex) := s in
  match st with
  | RUPTURA => StockLevelSummary.mk (ru + 1) ri se ex
  | RISCO => StockLevelSummary.mk ru (ri + 1) se ex
  | SEGURANCA => StockLevelSummary.mk ru ri (se + 1) ex
  | EXCESSO => StockLevelSummary.mk ru ri se (ex + 1)
  end.

Definition stockLevelSummary : StockLevelSummary.t :=
  fold_left
    (fun s p =>
       increment s
         (stockLevelStatus (Fin (Product.stock p))
            (orZero (JSMap.get (Product.id p) salesMap))
            daysPassed daysInMonth))
    products (StockLevelSummary.mk 0 0 0 0).

(** *** Top sales peaks *)

Definition salesByDay : JSMap.t :=
  fold_left
    (fun m sale =>
       let day := toLocaleDateString (TicketSale.timestamp sale) in
       JSMap.set day (orZero (JSMap.get day m) + Fin (TicketSale.total sale)) m)
    salesThisMonth [].

Definition top5SalesPeaks : list SalesPeak.t :=
  JSArray.slice0 5
    (JSArray.sort (fun a b => SalesPeak.total b - SalesPeak.total a)
       (map (fun '(date, total) => SalesPeak.mk date total) salesByDay)).

End Engine.

End Dashboard.

(* ================================================================== *)
(** ** The figures in binary64

    The classifier of the product list and the scalar KPIs of the
    dashboard divide and multiply, and what they return depends on the
    rounding of the language's numbers.  They are embedded here on those
    numbers themselves: [float] is IEEE 754 binary64, with the signed
    zeros, the infinities and NaN, and its operations round to nearest,
    ties to even.  The records carry the numbers as the JSON parser
    leaves them. *)

Module Binary64.

Local Open Scope float_scope.

(** A field of a date as a number; exact, the fields being far below
    2^53. *)
Definition ofZ (z : Z) : float :=
  if (z <? 0)%Z then - of_uint63 (Uint63.of_Z (- z))
  else of_uint63 (Uint63.of_Z z).

(** [x || 0] where [x] may be [undefined]: a zero of either sign and NaN
    are falsy. *)
Definition orZero (x : option float) : float :=
  match x with
  | Some v => if (v =? 0) || is_nan v then 0 else v
  | None => 0
  end.

(** [Math.min(x, y)] *)
Definition min (x y : float) : float :=
  if is_nan x || is_nan y then nan
  else if x <? y then x
  else if y <? x then y
  else if get_sign x then x else y.

(** *** types.ts *)

Module Product.
Record t : Set := mk {
  id : jsstring;
  name : jsstring;
  cost : float;
  stock : float
}.
End Product.

Inductive Item : Set :=
| IProduct (p : Product.t)
| IService (s : Service.t).

Module SaleItem.
Record t : Set := mk {
  item : Item;
  quantity : float;
  type : SaleItemType
}.

(** [saleItem.item.id] *)
Definition itemId (i : t) : jsstring :=
  match item i with
  | IProduct p => Product.id p
  | IService s => Service.id s
  end.
End SaleItem.

Module TicketSale.
Record t : Set := mk {
  items : list SaleItem.t;
  total : float;
  timestamp : Date.t
}.
End TicketSale.

Module CashTransaction.
Record t : Set := mk {
  amount : float;
  type : TransactionType;
  category : TransactionCategory;
  status : TransactionStatus;
  timestamp : Date.t
}.
End CashTransaction.

Module KpiGoals.
Record t : Set := mk {
  predictedAvgMargin : float;
  netProfit : float;
  inventoryTurnoverGoal : float
}.
End KpiGoals.

(** A [Map<string, number>]: the entries in insertion order. *)
Module JSMap.

Definition t : Set := list (jsstring * float).

Fixpoint get (key : jsstring) (m : t) : option float :=
  match m with
  | [] => None
  | (k, v) :: r => if streq k key then Some v else get key r
  end.

Fixpoint set (key : jsstring) (v : float) (m : t) : t :=
  match m with
  | [] => [(key, v)]
  | (k, x) :: r =>
      if streq k key then (k, v) :: r else (k, x) :: set key v r
  end.

End JSMap.

(** [productSalesMap]: the quantity sold of each product over some
    tickets. *)
Definition productSalesMap (salesThisMonth : list TicketSale.t) : JSMap.t :=
  fold_left
    (fun m sale =>
       fold_left
         (fun m item =>
            match SaleItem.type item with
            | TProduct =>
                JSMap.set (SaleItem.itemId item)
                  (orZero (JSMap.get (SaleItem.itemId item) m)
                   + SaleItem.quantity item)
                  m
            | TService => m
            end)
         (TicketSale.items sale) m)
    salesThisMonth [].

(** *** Products: productsWithMetrics *)

Module Products.

(** The status the [products.map] callback gives: [stock] is [p.stock],
    [soldQty] the month's quantity from [productSalesMap] and [today]
    is [now.getDate()]. *)
Definition productStatus (stock soldQty today : float) : ProductStatus :=
  if stock <=? 0 then RUPTURA
  else if 0 <? soldQty then
    let dailySales := soldQty / today in
    if 0 <? dailySales then
      let daysOfStock := stock / dailySales in
      if daysOfStock <=? 7 then RISCO
      else if daysOfStock <=? 30 then SEGURANCA
      else EXCESSO
    else EXCESSO
  else EXCESSO.

Record ProductWithMetrics : Set := mkMetrics {
  product : Product.t;
  status : ProductStatus;
  turnover : float
}.

Definition productsWithMetrics (now : Date.t)
  (products : list Product.t) (ticketSales : list TicketSale.t)
  : list ProductWithMetrics :=
  let startOfMonth :=
    Date.firstOfMonth (Date.getFullYear now) (Date.getMonth now) in
  let salesThisMonth :=
    filter (fun sale => Date.geb (TicketSale.timestamp sale) startOfMonth)
      ticketSales in
  let productSalesMap := productSalesMap salesThisMonth in
  let today := ofZ (Date.getDate now) in
  map (fun p =>
         let soldQty := orZero (JSMap.get (Product.id p) productSalesMap) in
         let turnover :=
           if 0 <? Product.stock p then soldQty / Product.stock p else 0 in
         mkMetrics p (productStatus (Product.stock p) soldQty today) turnover)
    products.

End Products.

(** *** Dashboard: the scalar KPIs of the engine *)

Module Engine.

Section Engine.

Variable transactions : list CashTransaction.t.
Variable ticketSales : list TicketSale.t.
Variable products : list Product.t.
Variable goals : KpiGoals.t.
Variable c : competency.
Variable now : Date.t.

Definition salesThisMonth : list TicketSale.t :=
  filter (fun sale => Dashboard.inMonth c (TicketSale.timestamp sale))
    ticketSales.

Definition transactionsThisMonth : list CashTransaction.t :=
  filter (fun t => Dashboard.inMonth c (CashTransaction.timestamp t))
    transactions.

(** [endOfMonth.getDate()]; NaN on the invalid date of a cleared
    picker. *)
Definition daysInMonth : float :=
  match Dashboard.endOfMonth c with
  | Some e => ofZ (Date.getDate e)
  | None => nan
  end.

Definition daysPassed : float :=
  if Dashboard.isCurrentMonth c now
  then min (ofZ (Date.getDate now)) daysInMonth
  else daysInMonth.

(** **** Financial KPI calculations *)

Definition currentRevenue : float :=
  fold_left (fun sum sale => sum + TicketSale.total sale) salesThisMonth 0.

Definition fixedCostCategories : list TransactionCategory :=
  [RENT; SALARY; TAXES; INTERNET; WATER; ELECTRICITY; OTHER].

Definition fixedCosts : float :=
  fold_left (fun sum t => sum + CashTransaction.amount t)
    (filter
       (fun t =>
          TransactionType_beq (CashTransaction.type t) EXPENSE
          && existsb (TransactionCategory_beq (CashTransaction.category t))
               fixedCostCategories
          && TransactionStatus_beq (CashTransaction.status t) PAID)
       transactionsThisMonth)
    0.

Definition variableCostOfProductsSold : float :=
  fold_left
    (fun cogs sale =>
       cogs +
       fold_left
         (fun itemCost saleItem =>
            match SaleItem.type saleItem, SaleItem.item saleItem with
            | TProduct, IProduct p =>
                itemCost + Product.cost p * SaleItem.quantity saleItem
            | _, _ => itemCost
            end)
         (TicketSale.items sale) 0)
    salesThisMonth 0.

Definition variableCostOfServices : float :=
  fold_left (fun sum t => sum + CashTransaction.amount t)
    (filter
       (fun t =>
          TransactionCategory_beq (CashTransaction.category t) SERVICE_COST
          && TransactionStatus_beq (CashTransaction.status t) PAID)
       transactionsThisMonth)
    0.

Definition totalVariableCosts : float :=
  variableCostOfProductsSold + variableCostOfServices.


Definition currentNetProfit : float :=
  currentRevenue - totalVariableCosts - fixedCosts.

Definition predictedMarginRatio : float :=
  KpiGoals.predictedAvgMargin goals / 100.

Definition breakEvenPoint : float :=
  if 0 <? predictedMarginRatio then fixedCosts / predictedMarginRatio
  else 0.

Definition totalRevenueGoal : float :=
  breakEvenPoint + KpiGoals.netProfit goals.


Definition monthlyForecast : float :=
  if 0 <? daysPassed then (currentRevenue / daysPassed) * daysInMonth
  else 0.

(** **** Inventory KPI calculations *)





End Engine.

End Engine.

End Binary64.

(* ================================================================== *)
(** ** The specification's reading of the classifier *)

Module Spec.

Local Open Scope js_scope.

(** The algorithm of the specification, step by step, on the numbers
    of the language; its statuses OutOfStock, AtRisk, Healthy and Excess
    are the [RUPTURA], [RISCO], [SEGURANCA] and [EXCESSO] of
    [ProductStatus]. *)
Definition inventoryStatus (stock unitsSold daysElapsed : float)
  : ProductStatus :=
  if (stock <=? 0)%float then RUPTURA
  else if (0 <? unitsSold)%float then
    let dailyRate := (unitsSold / daysElapsed)%float in
    if (dailyRate <=? 0)%float then EXCESSO
    else
      let daysOfStockRemaining := (stock / dailyRate)%float in
      if (daysOfStockRemaining <=? 7)%float then RISCO
      else if (daysOfStockRemaining <=? 30)%float then SEGURANCA
      else EXCESSO
  else EXCESSO.

(** *** Person names *)

(** upper case for the first unit of the word *)
Definition titleCase (w : jsstring) : jsstring :=
  toUpperCase (charAt0 w) ++ slice1 w.

(** The form of one word, already in lower case, at position [index]:
    the table of special tokens first, then the connectors that are not
    in first position, then title case. *)
Definition personWord (w : jsstring) (index : nat) : jsstring :=
  match assoc w specialCases with
  | Some fixed => fixed
  | None =>
      if includes w lowercasePrefixes && negb (index =? 0)%nat then w
      else titleCase w
  end.

Fixpoint joinWords (sep : jsstring) (l : list jsstring) : jsstring :=
  match l with
  | [] => []
  | [w] => w
  | w :: r => w ++ sep ++ joinWords sep r
  end.

(** Trim, lower-case, split at the spaces, give each word its form and
    join the words again with single spaces; [None] is an input that is
    not a string. *)
Definition formatPersonName (name : option jsstring) : jsstring :=
  match name with
  | None => []
  | Some s =>
      joinWords (str " ")
        (filter (fun w => negb (isEmpty w))
           (mapIndex personWord (split 32 (toLowerCase (trim s)))))
  end.

(** a text that lower-casing leaves as it is *)
Definition lowered (w : jsstring) : Prop := toLowerCase w = w.

(** the names of the members every object inherits *)
Definition inheritedKey (w : jsstring) : bool :=
  streq w (str "constructor") || streq w (str "__proto__")
  || includes w objectPrototypeMethods.

(** *** Tax ids, on the list of the digits *)

(** the sum of the digits, each times its weight *)
Fixpoint weightedSum (ws ds : list Z) : Z :=
  match ws, ds with
  | w :: ws', d :: ds' => (w * d + weightedSum ws' ds')%Z
  | _, _ => 0%Z
  end.

(** The weights of a personal id over [n] digits: [n + 1] down to 2. *)
Definition cpfWeights (n : nat) : list Z :=
  map (fun k => (Z.of_nat n + 1 - Z.of_nat k)%Z) (List.seq 0 n).

(** One pass of the personal id: ten times the weighted sum, modulo 11,
    where a result of 10 counts as 0. *)
Definition cpfCheckDigit (ds : list Z) : Z :=
  let r := ((10 * weightedSum (cpfWeights (length ds)) ds) mod 11)%Z in
  if (r =? 10)%Z then 0%Z else r.

(** The two passes: over the first 9 digits for the 10th, over the
    first 10 for the 11th. *)
Definition cpfChecksum (ds : list Z) : bool :=
  (cpfCheckDigit (firstn 9 ds) =? nth 9 ds 0)%Z
  && (cpfCheckDigit (firstn 10 ds) =? nth 10 ds 0)%Z.

(** The weights of a corporate id over [n] digits: 2 to 9 and again,
    from the rightmost digit leftwards. *)
Definition cnpjWeights (n : nat) : list Z :=
  rev (map (fun k => (2 + Z.of_nat (k mod 8))%Z) (List.seq 0 n)).

(** A check digit of the corporate id: 0 when the weighted sum modulo 11
    is below 2, else 11 minus it. *)
Definition cnpjCheckDigit (ds : list Z) : Z :=
  let r := (weightedSum (cnpjWeights (length ds)) ds mod 11)%Z in
  if (r <? 2)%Z then 0%Z else (11 - r)%Z.

(** Once per check digit: over the first 12 digits for the 13th, over
    the first 13 for the 14th. *)
Definition cnpjChecksum (ds : list Z) : bool :=
  (cnpjCheckDigit (firstn 12 ds) =? nth 12 ds 0)%Z
  && (cnpjCheckDigit (firstn 13 ds) =? nth 13 ds 0)%Z.

Definition allIdentical (ds : list Z) : bool :=
  match ds with
  | [] => true
  | d :: r => forallb (Z.eqb d) r
  end.

(** The verdict the specification gives on the digits of the input. *)
Definition isValidTaxId (ds : list Z) : bool :=
  match length ds with
  | 0%nat => true
  | 11%nat => cpfChecksum ds && negb (allIdentical ds)
  | 14%nat => cnpjChecksum ds && negb (allIdentical ds)
  | _ => false
  end.

(** The cash effect of a transaction: its amount, with the sign of its
    type. *)
Definition signedAmount (t : CashTransaction.t) : Qc :=
  match CashTransaction.type t with
  | INCOME => CashTransaction.amount t
  | EXPENSE => (- CashTransaction.amount t)%Qc
  end.

Definition isPaid (t : CashTransaction.t) : bool :=
  match CashTransaction.status t with PAID => true | PENDING => false end.

(** strictly before the first instant of month [month] of [year] *)
Definition beforeMonth (year month : Z) (t : CashTransaction.t) : bool :=
  Date.ltb (CashTransaction.timestamp t) (Date.firstOfMonth year (month - 1)).

Definition signedSum (l : list CashTransaction.t) : Qc :=
  fold_right (fun t acc => (signedAmount t + acc)%Qc) 0%Qc l.

(** The entry of the lowest-turnover list for a product nothing was
    sold of. *)
Definition unsoldEntry (p : Product.t) : TopProduct.t :=
  TopProduct.mk (Product.id p) (Product.name p) (ofZ 0)
    (Fin (Product.stock p)) (Some (ofZ 0)).

(** Every value of the map is finite. *)
Definition finiteMap (m : JSMap.t) : Prop :=
  Forall (fun kv => isFinite (snd kv) = true) m.

(** *** Phone numbers, on the list of the digits *)

(** The verdict on the digits of a phone: 10 or 11 of them, the first
    two reading as a number from 11 up, and not all the same. *)
Definition phoneVerdict (ds : list Z) : bool :=
  ((length ds =? 10)%nat || (length ds =? 11)%nat)
  && (11 <=? 10 * nth 0 ds 0 + nth 1 ds 0)%Z
  && negb (allIdentical ds).

(** *** Spaces in a text *)

(** no unit of the text is a space *)
Definition spaceFree (s : jsstring) : bool :=
  forallb (fun c => negb (N.eqb c 32)) s.

(** Cut at its spaces, the text has no empty piece: it neither starts
    nor ends with a space and has no two spaces in a row. *)
Definition singleSpaced (s : jsstring) : bool :=
  forallb (fun w => negb (isEmpty w)) (split 32 s).

(** *** Dates and months *)

(** A date of the calendar: a month from 0 to 11, a day of that month
    and a time within the day. *)
Definition validDate (d : Date.t) : bool :=
  ((0 <=? Date.getMonth d) && (Date.getMonth d <=? 11)
   && (1 <=? Date.getDate d)
   && (Date.getDate d <=? Date.daysIn (Date.getFullYear d) (Date.getMonth d))
   && (0 <=? Date.msOfDay d) && (Date.msOfDay d <=? 86399999))%Z.

(** the month after month [month] (from 1) of [year] *)
Definition nextMonth (year month : Z) : Z * Z :=
  if (month =? 12)%Z then ((year + 1)%Z, 1%Z) else (year, (month + 1)%Z).

(** the amounts of the entries under [key], added up *)
Definition tally (key : jsstring) (entries : list (jsstring * Qc)) : Qc :=
  fold_right
    (fun e acc => ((if streq (fst e) key then snd e else 0) + acc)%Qc)
    0%Qc entries.

(** the product lines of the tickets: the id of the product and the
    quantity *)
Definition productLines (sales : list TicketSale.t) : list (jsstring * Qc) :=
  flat_map
    (fun sale =>
       flat_map
         (fun item =>
            match SaleItem.type item with
            | TProduct => [(SaleItem.itemId item, SaleItem.quantity item)]
            | TService => []
            end)
         (TicketSale.items sale))
    sales.

(** The strings a pattern stands for. *)
Inductive Matches : Regex.t -> jsstring -> Prop :=
| MEps : Matches Regex.Eps []
| MClass (p : N -> bool) (c : N) :
    p c = true -> Matches (Regex.Class p) [c]
| MSeq (a b : Regex.t) (u v : jsstring) :
    Matches a u -> Matches b v -> Matches (Regex.Seq a b) (u ++ v)
| MAltL (a b : Regex.t) (s : jsstring) :
    Matches a s -> Matches (Regex.Alt a b) s
| MAltR (a b : Regex.t) (s : jsstring) :
    Matches b s -> Matches (Regex.Alt a b) s
| MStarNil (a : Regex.t) : Matches (Regex.Star a) []
| MStarCons (a : Regex.t) (u v : jsstring) :
    Matches a u -> Matches (Regex.Star a) v ->
    Matches (Regex.Star a) (u ++ v).

(** A part of an address: not empty, and free of white space and of
    [@]. *)
Definition addressPart (s : jsstring) : bool :=
  negb (isEmpty s) && forallb notSpaceOrAt s.

End Spec.

(* ================================================================== *)
(** * Properties *)

(** ** Numbers *)

Section NumberFacts.

Local Open Scope js_scope.

Lemma Qcltb_lt (a b : Qc) : Qcltb a b = true <-> (a < b)%Qc.
Proof.
  unfold Qcltb. rewrite Qclt_alt.
  destruct (a ?= b)%Qc; split; congruence.
Qed.

Lemma Qcleb_le (a b : Qc) : Qcleb a b = true <-> (a <= b)%Qc.
Proof.
  unfold Qcleb. rewrite Qcle_alt.
  destruct (a ?= b)%Qc; split; congruence.
Qed.

Lemma Qceqb_eq (a b : Qc) : Qceqb a b = true <-> a = b.
Proof.
  unfold Qceqb. rewrite Qceq_alt.
  destruct (a ?= b)%Qc; split; congruence.
Qed.

Lemma Qcltb_negb_leb (a b : Qc) : Qcltb a b = negb (Qcleb b a).
Proof.
  unfold Qcltb, Qcleb, Qccompare.
  rewrite <- (Qcompare_antisym a b).
  destruct (Qcompare a b); reflexivity.
Qed.

End NumberFacts.

(** ** Numbers in binary64 *)

Section Binary64Facts.

Local Open Scope float_scope.

Lemma SF_zero : Prim2SF 0 = S754_zero false.
Proof. reflexivity. Qed.



Lemma positive_not_le (x : float) : (0 <? x) = true -> (x <=? 0) = false.
Proof.
  rewrite FloatAxioms.leb_spec, FloatAxioms.ltb_spec, SF_zero.
  destruct (Prim2SF x) as [[]|[]| |[] m e]; cbn; intros; try discriminate;
    reflexivity.
Qed.

(** Only NaN is neither positive nor at most zero. *)
Lemma unordered_with_zero (d : float) :
  (d <=? 0) = false -> (0 <? d) = false -> Prim2SF d = S754_nan.
Proof.
  rewrite FloatAxioms.leb_spec, FloatAxioms.ltb_spec, SF_zero.
  destruct (Prim2SF d) as [[]|[]| |[] m e]; cbn; intros; try discriminate;
    reflexivity.
Qed.

Lemma div_nan_r (s d : float) :
  Prim2SF d = S754_nan -> Prim2SF (s / d) = S754_nan.
Proof.
  intros H. rewrite FloatAxioms.div_spec, H. unfold SF64div.
  destruct (Prim2SF s); reflexivity.
Qed.

Lemma leb_nan_l (x k : float) : Prim2SF x = S754_nan -> (x <=? k) = false.
Proof. intros H. rewrite FloatAxioms.leb_spec, H. reflexivity. Qed.





(** A hundredth of a negative number is not positive, and neither is a
    hundredth of a zero. *)
Lemma hundredth_not_positive (m : float) :
  (m <? 0) = true \/ (m =? 0) = true -> (0 <? m / 100) = false.
Proof.
  rewrite !FloatAxioms.ltb_spec, FloatAxioms.eqb_spec, FloatAxioms.div_spec,
    SF_zero.
  replace (Prim2SF 100) with (S754_finite false 7036874417766400 (-46))
    by reflexivity.
  destruct (Prim2SF m) as [[]|[]| |[] mm e];
    cbn [SFltb SFeqb SFcompare]; intros [H|H];
    try discriminate H; try reflexivity.
  unfold SF64div, SFdiv.
  destruct (SFdiv_core_binary _ _ _ _ _ _) as [[mz ez] lz].
  unfold binary_round_aux.
  destruct (shr_fexp _ _ _ _ _) as [mrs' e'].
  destruct (shr_fexp _ _ _ _ _) as [mrs'' e''].
  destruct (shr_m mrs''); [reflexivity | | reflexivity].
  destruct (e'' <=? emax - prec)%Z; reflexivity.
Qed.

End Binary64Facts.

(** ** The inventory status classifier *)

Section Classifier.

Local Open Scope float_scope.

(** The callback of the product list and the algorithm of the
    specification differ in one test, [dailySales > 0] against
    [dailyRate <= 0]; the two part only at NaN, where both end on
    Excess. *)
Lemma productStatus_spec (stock soldQty today : float) :
  Binary64.Products.productStatus stock soldQty today
  = Spec.inventoryStatus stock soldQty today.
Proof.
  unfold Binary64.Products.productStatus, Spec.inventoryStatus.
  destruct (stock <=? 0); [reflexivity|].
  destruct (0 <? soldQty); [|reflexivity].
  cbv zeta.
  destruct (0 <? soldQty / today) eqn:P.
  - rewrite (@positive_not_le _ P). reflexivity.
  - destruct (soldQty / today <=? 0) eqn:L; [reflexivity|].
    pose proof (@div_nan_r stock _ (@unordered_with_zero _ L P)) as N.
    rewrite !(@leb_nan_l _ _ N). reflexivity.
Qed.

End Classifier.

(** C1. Every product of the list gets the status that the algorithm of
    the specification gives for its stock, the quantity sold in the
    month and the day of the month, all in the arithmetic of the
    language: out of stock at [stock <= 0]; otherwise, with sales, by
    the days of stock left at the daily rate (at most 7: at risk; at
    most 30: healthy; else excess, as for a rate that is not positive);
    without sales, excess.  A stock of 100 with 50 sold in 10 days is
    healthy. *)
Theorem C1_productStatus_follows_algorithm :
  (forall now products ticketSales,
      map Binary64.Products.status
        (Binary64.Products.productsWithMetrics now products ticketSales)
      = map
          (fun p =>
             Spec.inventoryStatus (Binary64.Product.stock p)
               (Binary64.orZero
                  (Binary64.JSMap.get (Binary64.Product.id p)
                     (Binary64.productSalesMap
                        (filter
                           (fun sale =>
                              Date.geb (Binary64.TicketSale.timestamp sale)
                                (Date.firstOfMonth (Date.getFullYear now)
                                   (Date.getMonth now)))
                           ticketSales))))
               (Binary64.ofZ (Date.getDate now)))
          products)
  /\ (forall stock soldQty today,
         Binary64.Products.productStatus stock soldQty today
         = Spec.inventoryStatus stock soldQty today)
  /\ Binary64.Products.productStatus 100 50 10 = SEGURANCA.
Proof.
  split; [|split].
  - intros now products ticketSales.
    unfold Binary64.Products.productsWithMetrics.
    rewrite map_map. apply map_ext. intros p.
    cbn [Binary64.Products.status]. apply productStatus_spec.
  - exact productStatus_spec.
  - vm_compute. reflexivity.
Qed.

(** The days of stock are compared as the language computes them: 21 in
    stock with 7 sold in 10 days last 30.000000000000004 days, past the
    30 of the healthy band. *)
Lemma productStatus_at_the_boundary :
  (21 / (7 / 10) =? 0x1.e000000000001p+4)%float = true
  /\ (21 / (7 / 10) <=? 30)%float = false
  /\ Binary64.Products.productStatus 21 7 10 = EXCESSO
  /\ Spec.inventoryStatus 21 7 10 = EXCESSO.
Proof. vm_compute. repeat split. Qed.

(** ** Finite numbers *)

Section Finiteness.

Local Open Scope js_scope.

Lemma isFinite_inv (x : number) : isFinite x = true -> exists q, x = Fin q.
Proof. destruct x; try discriminate. eauto. Qed.

Lemma add_finite (x y : number) :
  isFinite x = true -> isFinite y = true -> isFinite (x + y) = true.
Proof. destruct x, y; auto. Qed.

Lemma gt_zero_Fin (b : Qc) : (Fin b >? (ofZ 0)) = true -> (0 < b)%Qc.
Proof. unfold gtb, ltb, ofZ. intros H. apply Qcltb_lt in H. exact H. Qed.

Lemma Qcpos_neq0 (b : Qc) : (0 < b)%Qc -> b <> 0%Qc.
Proof. intros H E. apply (Qclt_not_eq _ _ H). symmetry. exact E. Qed.

Lemma div_Fin (a b : Qc) : b <> 0%Qc -> Fin a / Fin b = Fin (a / b).
Proof.
  intros H. unfold div.
  destruct (Qceqb b 0) eqn:E; [|reflexivity].
  apply Qceqb_eq in E. contradiction.
Qed.

(** A quotient by a positive number is finite. *)
Lemma div_finite (x y : number) :
  isFinite x = true -> (y >? (ofZ 0)) = true -> isFinite y = true ->
  isFinite (x / y) = true.
Proof.
  intros Hx Hy Fy.
  apply isFinite_inv in Hx as [a ->]. apply isFinite_inv in Fy as [b ->].
  rewrite div_Fin; [reflexivity|].
  apply Qcpos_neq0, gt_zero_Fin, Hy.
Qed.

Lemma orZero_finite (x : option number) :
  match x with Some v => isFinite v = true | None => True end ->
  isFinite (orZero x) = true.
Proof.
  destruct x as [v|]; [|reflexivity].
  intros H. unfold orZero. destruct (truthy v); [exact H | reflexivity].
Qed.

End Finiteness.

(** ** The two stock classifications *)

(** C10. At a stock below zero the two views part: the summary of the
    dashboard, which only takes [stock === 0] for a rupture, counts the
    product as excess (or, with sales, at risk), where the product list,
    which takes [stock <= 0], shows a rupture. *)
Theorem C10_stock_views_differ_below_zero :
  Dashboard.stockLevelStatus (ofZ (-1)) (ofZ 0) (ofZ 10) (ofZ 30) = EXCESSO
  /\ Products.productStatus (ofZ (-1)) (ofZ 0) (ofZ 10) = RUPTURA
  /\ Dashboard.stockLevelStatus (ofZ (-1)) (ofZ 5) (ofZ 10) (ofZ 30) = RISCO
  /\ Products.productStatus (ofZ (-1)) (ofZ 5) (ofZ 10) = RUPTURA
  /\ (let p := Product.mk (str "p1") (str "cabo") (Q2Qc 2) (Q2Qc (-1)) in
      let now := Date.mk 2024 2 10 0 in
      Dashboard.stockLevelSummary [] [p] (Some (2024, 3)%Z) now
      = StockLevelSummary.mk 0 0 0 1
      /\ map Products.status (Products.productsWithMetrics now [p] [])
         = [RUPTURA]).
Proof. vm_compute. repeat split. Qed.

(** ** Maps, sorting and the rankings *)

Section Containers.

Local Open Scope js_scope.

Lemma get_finite (key : jsstring) (m : JSMap.t) :
  Spec.finiteMap m ->
  match JSMap.get key m with
  | Some v => isFinite v = true
  | None => True
  end.
Proof.
  induction 1 as [|[k v] m Hv Hm IH]; cbn; [exact I|].
  destruct (streq k key); [exact Hv | exact IH].
Qed.

Lemma set_finite (key : jsstring) (v : number) (m : JSMap.t) :
  isFinite v = true -> Spec.finiteMap m -> Spec.finiteMap (JSMap.set key v m).
Proof.
  intros Hv. induction 1 as [|[k x] m Hx Hm IH]; cbn.
  - repeat constructor. exact Hv.
  - destruct (streq k key); constructor; auto.
Qed.

Lemma bump_finite (key : jsstring) (q : Qc) (m : JSMap.t) :
  Spec.finiteMap m ->
  Spec.finiteMap (JSMap.set key (orZero (JSMap.get key m) + Fin q) m).
Proof.
  intros Hm. apply set_finite; [|exact Hm].
  apply add_finite; [|reflexivity].
  apply orZero_finite, get_finite, Hm.
Qed.

Lemma fold_left_invariant {A S : Type} (P : S -> Prop) (f : S -> A -> S)
  (l : list A) :
  (forall s x, P s -> P (f s x)) ->
  forall s, P s -> P (fold_left f l s).
Proof.
  intros Hf. induction l as [|x l IH]; intros s Hs; cbn; auto.
Qed.

Lemma productSalesMap_finite (sales : list TicketSale.t) :
  Spec.finiteMap (productSalesMap sales).
Proof.
  unfold productSalesMap.
  apply fold_left_invariant; [|constructor].
  intros m sale Hm.
  apply fold_left_invariant; [|exact Hm].
  intros m' it Hm'. destruct (SaleItem.type it); [|exact Hm'].
  apply bump_finite, Hm'.
Qed.

Lemma salesByDay_finite (toLocaleDateString : Date.t -> jsstring)
  (ticketSales : list TicketSale.t) (c : competency) :
  Spec.finiteMap (Dashboard.salesByDay toLocaleDateString ticketSales c).
Proof.
  unfold Dashboard.salesByDay.
  apply fold_left_invariant; [|constructor].
  intros m sale Hm. apply bump_finite, Hm.
Qed.

Lemma insertSorted_Forall {A : Type} (P : A -> Prop)
  (cmp : A -> A -> number) (x : A) (l : list A) :
  P x -> Forall P l -> Forall P (JSArray.insertSorted cmp x l).
Proof.
  intros Hx. induction 1 as [|y r Hy Hr IH]; cbn [JSArray.insertSorted].
  - repeat constructor. exact Hx.
  - destruct (cmp x y >? (ofZ 0)).
    + constructor; [exact Hy | exact IH].
    + constructor; [exact Hx|]. constructor; [exact Hy | exact Hr].
Qed.

Lemma sort_Forall {A : Type} (P : A -> Prop) (cmp : A -> A -> number)
  (l : list A) :
  Forall P l -> Forall P (JSArray.sort cmp l).
Proof.
  induction 1 as [|x l Hx Hl IH]; [constructor|].
  change (JSArray.sort cmp (x :: l))
    with (JSArray.insertSorted cmp x (JSArray.sort cmp l)).
  apply insertSorted_Forall; assumption.
Qed.

(** When every comparison gives zero, sorting changes nothing. *)
Lemma sort_all_equal {A : Type} (cmp : A -> A -> number) (l : list A) :
  (forall x y, In x l -> In y l -> (cmp x y >? (ofZ 0)) = false) ->
  JSArray.sort cmp l = l.
Proof.
  induction l as [|x l IH]; intros H; [reflexivity|].
  change (JSArray.sort cmp (x :: l))
    with (JSArray.insertSorted cmp x (JSArray.sort cmp l)).
  rewrite IH by (intros; apply H; right; assumption).
  destruct l as [|y r]; cbn [JSArray.insertSorted]; [reflexivity|].
  rewrite H; [reflexivity | left; reflexivity | right; left; reflexivity].
Qed.

End Containers.

(** ** Strict equality *)

Section StrictEquality.

Local Open Scope js_scope.

Lemma strictEq_true_eq (x y : number) : (x === y) = true -> x = y.
Proof.
  destruct x, y; try discriminate; try reflexivity.
  cbn. intros H. apply Qceqb_eq in H. congruence.
Qed.

End StrictEquality.

(** ** The scalar KPIs of the dashboard *)

Section EngineFacts.

Local Open Scope float_scope.

Lemma daysIn_cases (y m : Z) :
  Date.daysIn y m = 28%Z \/ Date.daysIn y m = 29%Z
  \/ Date.daysIn y m = 30%Z \/ Date.daysIn y m = 31%Z.
Proof.
  unfold Date.daysIn.
  destruct (m =? 1)%Z; [destruct (Date.isLeapYear y); auto|].
  destruct ((m =? 3) || (m =? 5) || (m =? 8) || (m =? 10))%Z; auto.
Qed.



(** On a day of the calendar, in a month that was picked, the days
    elapsed run from 1 to the days of the month. *)
Lemma daysPassed_range (year month : Z) (now : Date.t) :
  Spec.validDate now = true ->
  (0 <? Binary64.Engine.daysPassed (Some (year, month)) now) = true
  /\ (1 <=? Binary64.Engine.daysPassed (Some (year, month)) now) = true
  /\ (Binary64.Engine.daysPassed (Some (year, month)) now
      <=? Binary64.Engine.daysInMonth (Some (year, month))) = true.
Proof.
  intros V. unfold Binary64.Engine.daysPassed.
  unfold Binary64.Engine.daysInMonth, Dashboard.endOfMonth,
    Date.endOfMonthBefore.
  cbn [Date.getDate].
  unfold Spec.validDate in V. rewrite !andb_true_iff, !Z.leb_le in V.
  destruct V as [[[[[_ _] D1] D2] _] _].
  pose proof (daysIn_cases (Date.getFullYear now) (Date.getMonth now)) as B.
  assert (I : In (Date.getDate now) (map Z.of_nat (seq 1 31))).
  { rewrite <- (Z2Nat.id (Date.getDate now)) by lia.
    apply in_map, in_seq. lia. }
  revert I. generalize (Date.getDate now). clear.
  destruct (Dashboard.isCurrentMonth _ _);
    match goal with
    | |- context [Date.daysIn ?y ?m] =>
        destruct (daysIn_cases y m) as [E|[E|[E|E]]]; rewrite E
    end;
    apply Forall_forall; vm_compute; repeat constructor.
Qed.

End EngineFacts.




(** At a margin goal of -10 % and fixed costs of 1000 the break-even
    point is 0, not 1000 / (-10 / 100) = -10000. *)
Lemma C5_counterexample_negative_margin :
  let rent :=
    Binary64.CashTransaction.mk 1000 EXPENSE RENT PAID
      (Date.mk 2024 2 5 0) in
  let goals := Binary64.KpiGoals.mk (-10) 5000 1.5 in
  let c := Some (2024, 3)%Z in
  (Binary64.KpiGoals.predictedAvgMargin goals =? 0)%float = false
  /\ Binary64.Engine.fixedCosts [rent] c = 1000%float
  /\ Binary64.Engine.breakEvenPoint [rent] goals c = 0%float
  /\ (Binary64.Engine.fixedCosts [rent] c
      / (Binary64.KpiGoals.predictedAvgMargin goals / 100))%float
     = (-10000)%float
  /\ (Binary64.Engine.breakEvenPoint [rent] goals c
      =? Binary64.Engine.fixedCosts [rent] c
         / (Binary64.KpiGoals.predictedAvgMargin goals / 100))%float
     = false.
Proof. vm_compute. repeat split. Qed.

(** C5. The break-even point is the fixed costs over the margin goal
    taken as a ratio when that ratio is positive, and 0 otherwise; so it
    is 0 at a margin goal that is zero or negative.  The revenue goal is
    the break-even point plus the net profit goal.  Fixed costs of 1000
    at a margin goal of 40 % break even at 2500; at a margin goal of
    2^-1074 (about 5e-324) the ratio underflows to 0 and so does the
    break-even point. *)
Theorem C5_breakEven_by_margin_goal :
  forall transactions goals c,
    Binary64.Engine.breakEvenPoint transactions goals c
    = (if (0 <? Binary64.KpiGoals.predictedAvgMargin goals / 100)%float
       then (Binary64.Engine.fixedCosts transactions c
             / (Binary64.KpiGoals.predictedAvgMargin goals / 100))%float
       else 0%float)
    /\ ((Binary64.KpiGoals.predictedAvgMargin goals <? 0)%float = true
        \/ (Binary64.KpiGoals.predictedAvgMargin goals =? 0)%float = true ->
        Binary64.Engine.breakEvenPoint transactions goals c = 0%float)
    /\ Binary64.Engine.totalRevenueGoal transactions goals c
       = (Binary64.Engine.breakEvenPoint transactions goals c
          + Binary64.KpiGoals.netProfit goals)%float
    /\ (let rent :=
          Binary64.CashTransaction.mk 1000 EXPENSE RENT PAID
            (Date.mk 2024 2 5 0) in
        Binary64.Engine.fixedCosts [rent] (Some (2024, 3)%Z) = 1000%float
        /\ Binary64.Engine.breakEvenPoint [rent]
             (Binary64.KpiGoals.mk 40 5000 1.5) (Some (2024, 3)%Z)
           = 2500%float
        /\ Binary64.Engine.breakEvenPoint [rent]
             (Binary64.KpiGoals.mk 0x1p-1074 5000 1.5) (Some (2024, 3)%Z)
           = 0%float).
Proof.
  intros transactions goals c. split; [|split; [|split]].
  - reflexivity.
  - intros H. unfold Binary64.Engine.breakEvenPoint,
      Binary64.Engine.predictedMarginRatio.
    rewrite (@hundredth_not_positive _ H). reflexivity.
  - reflexivity.
  - vm_compute. repeat split.
Qed.

(** Margin goals of -10 and of 0, with a rent of 1000 paid in the
    month. *)
Lemma C5_witness_margins_without_break_even :
  let rent :=
    Binary64.CashTransaction.mk 1000 EXPENSE RENT PAID
      (Date.mk 2024 2 5 0) in
  let c := Some (2024, 3)%Z in
  Binary64.Engine.fixedCosts [rent] c = 1000%float
  /\ Binary64.Engine.breakEvenPoint [rent]
       (Binary64.KpiGoals.mk (-10) 5000 1.5) c = 0%float
  /\ Binary64.Engine.breakEvenPoint [rent]
       (Binary64.KpiGoals.mk 0 5000 1.5) c = 0%float.
Proof.
  intros rent c.
  destruct (C5_breakEven_by_margin_goal [rent]
              (Binary64.KpiGoals.mk (-10) 5000 1.5) c) as (_ & N & _).
  destruct (C5_breakEven_by_margin_goal [rent]
              (Binary64.KpiGoals.mk 0 5000 1.5) c) as (_ & Z & _).
  exact (conj eq_refl
           (conj (N (or_introl eq_refl)) (Z (or_intror eq_refl)))).
Defined.




(** X30. On a day of the calendar, in a month that was picked, the days
    elapsed are at least 1 and at most the days of the month; so the
    forecast never takes its guard's zero branch there and is the
    revenue over the days elapsed times the days of the month. *)
Theorem X30_days_elapsed_from_1_to_the_month_length :
  forall ticketSales year month now,
    Spec.validDate now = true ->
    (1 <=? Binary64.Engine.daysPassed (Some (year, month)) now)%float = true
    /\ (Binary64.Engine.daysPassed (Some (year, month)) now
        <=? Binary64.Engine.daysInMonth (Some (year, month)))%float = true
    /\ Binary64.Engine.monthlyForecast ticketSales (Some (year, month)) now
       = (Binary64.Engine.currentRevenue ticketSales (Some (year, month))
          / Binary64.Engine.daysPassed (Some (year, month)) now
          * Binary64.Engine.daysInMonth (Some (year, month)))%float.
Proof.
  intros ticketSales year month now V.
  destruct (@daysPassed_range year month now V) as (P & L & U).
  split; [exact L|]. split; [exact U|].
  unfold Binary64.Engine.monthlyForecast. rewrite P. reflexivity.
Qed.

(** 10 March 2024, with one ticket of 500 on 5 March: 10 days of 31, and
    a forecast of 1550. *)
Lemma X30_witness_10_march_2024 :
  let sales := [Binary64.TicketSale.mk [] 500 (Date.mk 2024 2 5 0)] in
  let now := Date.mk 2024 2 10 0 in
  Binary64.Engine.daysPassed (Some (2024, 3)%Z) now = 10%float
  /\ Binary64.Engine.monthlyForecast sales (Some (2024, 3)%Z) now
     = 1550%float
  /\ (1 <=? Binary64.Engine.daysPassed (Some (2024, 3)%Z) now)%float = true
  /\ (Binary64.Engine.daysPassed (Some (2024, 3)%Z) now
      <=? Binary64.Engine.daysInMonth (Some (2024, 3)%Z))%float = true
  /\ Binary64.Engine.monthlyForecast sales (Some (2024, 3)%Z) now
     = (Binary64.Engine.currentRevenue sales (Some (2024, 3)%Z)
        / Binary64.Engine.daysPassed (Some (2024, 3)%Z) now
        * Binary64.Engine.daysInMonth (Some (2024, 3)%Z))%float.
Proof.
  intros sales now.
  split; [reflexivity|]. split; [vm_compute; reflexivity|].
  apply (X30_days_elapsed_from_1_to_the_month_length sales 2024 3 now).
  reflexivity.
Defined.

(** ** The opening balance *)

Section OpeningBalance.

Local Open Scope js_scope.

Lemma fold_addPaid (l : list CashTransaction.t) (a : Qc) :
  fold_left Cash.addPaid l (Fin a)
  = Fin (a + Spec.signedSum (filter Spec.isPaid l)).
Proof.
  revert a. induction l as [|t l IH]; intros a; cbn [fold_left filter].
  - unfold Spec.signedSum. cbn [fold_right]. apply (f_equal Fin). ring.
  - unfold Cash.addPaid at 2, Spec.isPaid.
    destruct (CashTransaction.status t) eqn:St.
    + apply IH.
    + cbn [Spec.signedSum fold_right].
      fold (Spec.signedSum (filter Spec.isPaid l)).
      unfold Spec.signedAmount.
      destruct (CashTransaction.type t); cbn [neg add]; rewrite IH;
        apply (f_equal Fin); symmetry; apply Qcplus_assoc.
Qed.

Lemma filter_filter_andb {A : Type} (f g : A -> bool) (l : list A) :
  filter f (filter g l) = filter (fun x => f x && g x) l.
Proof.
  induction l as [|x l IH]; cbn; [reflexivity|].
  destruct (g x); cbn; [|rewrite andb_false_r; exact IH].
  rewrite andb_true_r. destruct (f x); cbn; congruence.
Qed.

End OpeningBalance.



(** ** The rankings of a month without tickets *)

Section EmptyMonth.

Local Open Scope js_scope.

Lemma zero_div_pos (s : Qc) :
  (Fin s >? ofZ 0) = true -> ofZ 0 / Fin s = ofZ 0.
Proof.
  intros H. apply gt_zero_Fin, Qcpos_neq0 in H.
  unfold ofZ. rewrite (div_Fin _ H). apply (f_equal Fin).
  change (Q2Qc (inject_Z 0)) with 0%Qc. field. exact H.
Qed.

Lemma unsold_ratio (l : list Product.t) (x : TopProduct.t) :
  In x (map Spec.unsoldEntry l) -> Dashboard.ratioOf x = ofZ 0.
Proof.
  intros H. apply in_map_iff in H as (p & <- & _). reflexivity.
Qed.

End EmptyMonth.

(** With no ticket at all, a product in stock is listed among those of
    lowest turnover. *)
Lemma C7_counterexample_lowest_turnover_not_empty :
  let p := Product.mk (str "p1") (str "cabo") (Q2Qc 2) (Q2Qc 5) in
  Dashboard.salesThisMonth [] (Some (2024, 3)%Z) = []
  /\ Dashboard.top10LowestTurnoverProducts [] [p] (Some (2024, 3)%Z)
     = [Spec.unsoldEntry p]
  /\ Dashboard.top10LowestTurnoverProducts [] [p] (Some (2024, 3)%Z) <> [].
Proof.
  intros p. split; [reflexivity|].
  assert (E : Dashboard.top10LowestTurnoverProducts [] [p]
                (Some (2024, 3)%Z) = [Spec.unsoldEntry p]).
  { unfold Dashboard.top10LowestTurnoverProducts, Dashboard.salesMap.
    cbn. unfold Spec.unsoldEntry. cbn.
    repeat f_equal. apply strictEq_true_eq. vm_compute. reflexivity. }
  split; [exact E|]. rewrite E. discriminate.
Qed.

(** C7. When no ticket falls in the month, the best sellers and the
    sales peaks are empty lists; the products of lowest turnover are the
    first ten products of the catalog that have stock, in catalog order,
    each with nothing sold and a turnover of 0: an empty list only when
    no product has stock. *)
Theorem C7_rankings_of_a_month_without_tickets :
  forall toLocaleDateString ticketSales products c,
    Dashboard.salesThisMonth ticketSales c = [] ->
    Dashboard.top10SoldProducts ticketSales products c = []
    /\ Dashboard.top5SalesPeaks toLocaleDateString ticketSales c = []
    /\ Dashboard.top10LowestTurnoverProducts ticketSales products c
       = firstn 10
           (map Spec.unsoldEntry
              (filter (fun p => (Fin (Product.stock p) >? ofZ 0)%js)
                 products)).
Proof.
  intros toLocaleDateString ticketSales products c H.
  unfold Dashboard.top10SoldProducts, Dashboard.top5SalesPeaks,
    Dashboard.top10LowestTurnoverProducts, Dashboard.salesByDay,
    Dashboard.salesMap.
  rewrite H. split; [reflexivity|]. split; [reflexivity|].
  unfold JSArray.slice0. f_equal.
  cbn [productSalesMap fold_left JSMap.get orZero]. unfold zero.
  rewrite (map_ext_in _ Spec.unsoldEntry).
  - apply sort_all_equal. intros x y Hx Hy.
    rewrite (unsold_ratio _ _ Hx), (unsold_ratio _ _ Hy). reflexivity.
  - intros p Hp. apply filter_In in Hp as [_ Hp].
    unfold Spec.unsoldEntry. rewrite (zero_div_pos _ Hp). reflexivity.
Qed.

(** March 2024 with one ticket of February: of three products, the two
    in stock are listed, in catalog order. *)
Lemma C7_witness_march_2024 :
  let p1 := Product.mk (str "p1") (str "cabo") (Q2Qc 2) (Q2Qc 5) in
  let p2 := Product.mk (str "p2") (str "capa") (Q2Qc 3) (Q2Qc 0) in
  let p3 := Product.mk (str "p3") (str "fone") (Q2Qc 9) (Q2Qc 2) in
  let item := SaleItem.mk (IProduct p1) (Q2Qc 4) TProduct in
  let sales := [TicketSale.mk [item] (Q2Qc 40) (Date.mk 2024 1 20 0)] in
  let c := Some (2024, 3)%Z in
  Dashboard.salesThisMonth sales c = []
  /\ Dashboard.top10SoldProducts sales [p1; p2; p3] c = []
  /\ Dashboard.top5SalesPeaks (fun _ => str "20/02/2024") sales c = []
  /\ Dashboard.top10LowestTurnoverProducts sales [p1; p2; p3] c
     = [Spec.unsoldEntry p1; Spec.unsoldEntry p3].
Proof.
  intros p1 p2 p3 item sales c.
  assert (H : Dashboard.salesThisMonth sales c = []) by reflexivity.
  destruct (C7_rankings_of_a_month_without_tickets
              (fun _ => str "20/02/2024") sales [p1; p2; p3] c H)
    as (S & P & L).
  refine (conj H (conj S (conj P _))).
  rewrite L. reflexivity.
Defined.

(** ** Tax ids *)

Section TaxIds.

Lemma strip_digits_id (cs : jsstring) :
  forallb isDigit cs = true -> stripNonDigits cs = cs.
Proof.
  unfold stripNonDigits. induction cs as [|c cs IH]; cbn; [reflexivity|].
  intros H. apply andb_prop in H as [Hc Hcs]. rewrite Hc, IH; auto.
Qed.

Lemma strip_all_digits (value : jsstring) :
  forallb isDigit (stripNonDigits value) = true.
Proof.
  apply forallb_forall. intros c H. apply filter_In in H. apply H.
Qed.

Lemma digitValue_range (c : N) :
  isDigit c = true -> (0 <= digitValue c <= 9)%Z.
Proof.
  unfold isDigit, digitValue. intros H.
  apply andb_prop in H as [H1 H2].
  apply N.leb_le in H1, H2. lia.
Qed.

Lemma digitValue_eqb (a b : N) :
  (digitValue a =? digitValue b)%Z = (a =? b)%N.
Proof.
  unfold digitValue.
  destruct (N.eqb_spec a b) as [->|H].
  - apply Z.eqb_refl.
  - apply Z.eqb_neq. lia.
Qed.

Lemma isRepeatedDigit_allIdentical (k : nat) (c : N) (r : jsstring) :
  isDigit c = true -> length r = k ->
  isRepeatedDigit k (c :: r) = Spec.allIdentical (map digitValue (c :: r)).
Proof.
  intros Hc Hk. unfold isRepeatedDigit. cbn [Spec.allIdentical map].
  rewrite Hc. subst k. rewrite Nat.eqb_refl. cbn [andb].
  clear Hc. induction r as [|x r IH]; cbn; [reflexivity|].
  rewrite digitValue_eqb, IH. reflexivity.
Qed.

Lemma cpfRemainder_spec (S : Z) (ds : list Z) :
  (0 <= S)%Z ->
  S = Spec.weightedSum (Spec.cpfWeights (length ds)) ds ->
  cpfRemainder S = Spec.cpfCheckDigit ds.
Proof.
  intros H0 E. unfold cpfRemainder, Spec.cpfCheckDigit. rewrite <- E.
  rewrite Z.rem_mod_nonneg by lia.
  replace (S * 10)%Z with (10 * S)%Z by lia.
  pose proof (Z.mod_pos_bound (10 * S) 11 ltac:(lia)) as B.
  destruct ((10 * S) mod 11 =? 10)%Z eqn:E10; [reflexivity|].
  destruct ((10 * S) mod 11 =? 11)%Z eqn:E11; [|reflexivity].
  apply Z.eqb_eq in E11. lia.
Qed.

Lemma cnpjResult_spec (S : Z) (ds : list Z) :
  (0 <= S)%Z ->
  S = Spec.weightedSum (Spec.cnpjWeights (length ds)) ds ->
  cnpjResult S = Spec.cnpjCheckDigit ds.
Proof.
  intros H0 E. unfold cnpjResult, Spec.cnpjCheckDigit. rewrite <- E.
  rewrite Z.rem_mod_nonneg by lia. reflexivity.
Qed.

Ltac digit_ranges H :=
  cbn [forallb] in H;
  repeat (let Hc := fresh "D" in
          apply andb_prop in H as [Hc H];
          apply digitValue_range in Hc).

Lemma cpf_case (c1 c2 c3 c4 c5 c6 c7 c8 c9 c10 c11 : N) :
  let cs := [c1; c2; c3; c4; c5; c6; c7; c8; c9; c10; c11] in
  forallb isDigit cs = true ->
  validateCPF cs
  = Spec.cpfChecksum (map digitValue cs)
    && negb (Spec.allIdentical (map digitValue cs)).
Proof.
  intros cs H. unfold validateCPF.
  rewrite (strip_digits_id _ H).
  assert (Hc1 : isDigit c1 = true)
    by (cbn in H; apply andb_prop in H; apply H).
  unfold cs at 2.
  rewrite (@isRepeatedDigit_allIdentical 10 c1
             [c2; c3; c4; c5; c6; c7; c8; c9; c10; c11] Hc1 eq_refl).
  fold cs. clear Hc1.
  destruct (Spec.allIdentical (map digitValue cs));
    [rewrite andb_false_r; reflexivity|].
  rewrite andb_true_r. unfold Spec.cpfChecksum.
  change (length cs =? 11)%nat with true. cbn [negb orb].
  change (digitAt cs 9) with (nth 9 (map digitValue cs) 0%Z).
  change (digitAt cs 10) with (nth 10 (map digitValue cs) 0%Z).
  unfold cs in H. digit_ranges H. clear H.
  rewrite (@cpfRemainder_spec (cpfSum cs 9 11)
             (firstn 9 (map digitValue cs)));
    [|unfold cs; cbn -[digitValue Z.mul]; lia|unfold cs; cbn -[digitValue Z.mul]; lia].
  rewrite (@cpfRemainder_spec (cpfSum cs 10 12)
             (firstn 10 (map digitValue cs)));
    [|unfold cs; cbn -[digitValue Z.mul]; lia|unfold cs; cbn -[digitValue Z.mul]; lia].
  destruct (_ =? _)%Z; [|reflexivity].
  destruct (_ =? _)%Z; reflexivity.
Qed.

Lemma cnpj_case (c1 c2 c3 c4 c5 c6 c7 c8 c9 c10 c11 c12 c13 c14 : N) :
  let cs := [c1; c2; c3; c4; c5; c6; c7; c8; c9; c10; c11; c12; c13; c14] in
  forallb isDigit cs = true ->
  validateCNPJ cs
  = Spec.cnpjChecksum (map digitValue cs)
    && negb (Spec.allIdentical (map digitValue cs)).
Proof.
  intros cs H. unfold validateCNPJ.
  rewrite (strip_digits_id _ H).
  assert (Hc1 : isDigit c1 = true)
    by (cbn in H; apply andb_prop in H; apply H).
  unfold cs at 2.
  rewrite (@isRepeatedDigit_allIdentical 13 c1
             [c2; c3; c4; c5; c6; c7; c8; c9; c10; c11; c12; c13; c14]
             Hc1 eq_refl).
  fold cs. clear Hc1.
  destruct (Spec.allIdentical (map digitValue cs));
    [rewrite andb_false_r; reflexivity|].
  rewrite andb_true_r. unfold Spec.cnpjChecksum.
  change (length cs =? 14)%nat with true. cbn [negb orb].
  change (length cs - 2)%nat with 12%nat.
  change (12 + 1)%nat with 13%nat.
  change (digitAt (skipn 12 cs) 0) with (nth 12 (map digitValue cs) 0%Z).
  change (digitAt (skipn 12 cs) 1) with (nth 13 (map digitValue cs) 0%Z).
  unfold cs in H. digit_ranges H. clear H.
  rewrite (@cnpjResult_spec (cnpjSum (substring 0 12 cs) 12)
             (firstn 12 (map digitValue cs)));
    [|unfold cs; cbn -[digitValue Z.mul]; lia|unfold cs; cbn -[digitValue Z.mul]; lia].
  rewrite (@cnpjResult_spec (cnpjSum (substring 0 13 cs) 13)
             (firstn 13 (map digitValue cs)));
    [|unfold cs; cbn -[digitValue Z.mul]; lia|unfold cs; cbn -[digitValue Z.mul]; lia].
  destruct (_ =? _)%Z; [|reflexivity].
  destruct (_ =? _)%Z; reflexivity.
Qed.

Lemma validateRegister_on_digits (cs : jsstring) :
  forallb isDigit cs = true ->
  (if (length cs =? 0)%nat then true
   else if (length cs =? 11)%nat then validateCPF cs
   else if (length cs =? 14)%nat then validateCNPJ cs
   else false)
  = Spec.isValidTaxId (map digitValue cs).
Proof.
  intros H. unfold Spec.isValidTaxId. rewrite length_map.
  do 15 (destruct cs as [|? cs];
         [cbn [length Nat.eqb];
          lazymatch goal with
          | |- validateCPF _ = _ => exact (cpf_case _ _ _ _ _ _ _ _ _ _ _ H)
          | |- validateCNPJ _ = _ =>
              exact (cnpj_case _ _ _ _ _ _ _ _ _ _ _ _ _ _ H)
          | |- _ => reflexivity
          end|]).
  cbn [length Nat.eqb]. reflexivity.
Qed.

End TaxIds.

(** C3. [validateRegister] gives, on any text, the verdict of the
    specification on its digits: valid when there is none; for 11
    digits, valid exactly when both passes of the personal checksum
    agree with the 10th and 11th digit and the digits are not all the
    same; for 14 digits, likewise with the weights 2 to 9 of the
    corporate checksum and the 13th and 14th digit; invalid at any other
    number of digits.  The four sample ids get the stated verdicts. *)
Theorem C3_validateRegister_checks_both_ids :
  (forall value,
      validateRegister value
      = Spec.isValidTaxId (map digitValue (stripNonDigits value)))
  /\ validateRegister [] = true
  /\ validateRegister (str "52998224725") = true
  /\ validateRegister (str "11111111111") = false
  /\ validateRegister (str "123456789") = false
  /\ validateRegister (str "11222333000181") = true.
Proof.
  split.
  { intros value. unfold validateRegister. cbv zeta.
    apply validateRegister_on_digits, strip_all_digits. }
  split; [|split; [|split; [|split]]]; vm_compute; reflexivity.
Qed.

(** ** The mask of a tax id *)

Section Mask.

Lemma strip_app (a b : jsstring) :
  stripNonDigits (a ++ b) = stripNonDigits a ++ stripNonDigits b.
Proof. apply filter_app. Qed.

Lemma strip_idempotent (s : jsstring) :
  stripNonDigits (stripNonDigits s) = stripNonDigits s.
Proof. apply strip_digits_id, strip_all_digits. Qed.

(** A separator put after the first [n] units leaves the digits alone. *)
Lemma strip_insert (n : nat) (sep s : jsstring) :
  stripNonDigits sep = [] ->
  stripNonDigits (firstn n s ++ sep ++ skipn n s) = stripNonDigits s.
Proof.
  intros H. rewrite !strip_app, H. cbn [app].
  rewrite <- strip_app, firstn_skipn. reflexivity.
Qed.

Lemma strip_replaceDigitsDigit (n : nat) (sep s : jsstring) :
  stripNonDigits sep = [] ->
  stripNonDigits (replaceDigitsDigit n sep s) = stripNonDigits s.
Proof.
  intros H. induction s as [|c r IH].
  - cbn [replaceDigitsDigit].
    destruct (startsWithDigits (S n) []); [apply strip_insert, H|reflexivity].
  - cbn [replaceDigitsDigit].
    destruct (startsWithDigits (S n) (c :: r)); [apply strip_insert, H|].
    unfold stripNonDigits in *. cbn [filter]. rewrite IH. reflexivity.
Qed.

Lemma strip_replaceDigitsTail (n : nat) (sep s : jsstring) :
  stripNonDigits sep = [] ->
  stripNonDigits (replaceDigitsTail n sep s) = stripNonDigits s.
Proof.
  intros H. induction s as [|c r IH].
  - cbn [replaceDigitsTail].
    destruct (isDigitsTail n []); [apply strip_insert, H|reflexivity].
  - cbn [replaceDigitsTail].
    destruct (isDigitsTail n (c :: r)); [apply strip_insert, H|].
    unfold stripNonDigits in *. cbn [filter]. rewrite IH. reflexivity.
Qed.

Lemma firstn_all_digits (n : nat) (s : jsstring) :
  forallb isDigit s = true -> forallb isDigit (firstn n s) = true.
Proof.
  revert n. induction s as [|c r IH]; intros [|n] H;
    cbn [firstn forallb]; try reflexivity.
  cbn [forallb] in H. apply andb_prop in H as [Hc Hr].
  rewrite Hc. apply IH, Hr.
Qed.

(** The mask keeps the digits of its input, up to the first 14 when
    there are more than 11. *)
Lemma formatRegister_keeps_digits (value : jsstring) :
  stripNonDigits (formatRegister value)
  = if (length (stripNonDigits value) <=? 11)%nat
    then stripNonDigits value
    else firstn 14 (stripNonDigits value).
Proof.
  unfold formatRegister. destruct value as [|c r]; [reflexivity|].
  cbn [isEmpty]. cbv zeta.
  destruct (length (stripNonDigits (c :: r)) <=? 11)%nat.
  - rewrite strip_replaceDigitsTail, !strip_replaceDigitsDigit
      by reflexivity.
    apply strip_idempotent.
  - rewrite strip_replaceDigitsTail, !strip_replaceDigitsDigit
      by reflexivity.
    unfold substring. cbn [skipn Nat.sub].
    apply strip_digits_id, firstn_all_digits, strip_all_digits.
Qed.

Lemma validateRegister_by_digits (a b : jsstring) :
  stripNonDigits a = stripNonDigits b ->
  validateRegister a = validateRegister b.
Proof. intros H. unfold validateRegister. rewrite H. reflexivity. Qed.

End Mask.

(** C4. On a text of exactly 11 or exactly 14 digits, the verdict on the
    masked text is the verdict on the text itself. *)
Theorem C4_mask_keeps_the_verdict :
  forall x,
    forallb isDigit x = true ->
    length x = 11%nat \/ length x = 14%nat ->
    validateRegister (formatRegister x) = validateRegister x.
Proof.
  intros x Hd Hl. apply validateRegister_by_digits.
  rewrite formatRegister_keeps_digits, (strip_digits_id _ Hd).
  destruct Hl as [-> | Hl]; [reflexivity|].
  rewrite Hl. cbn [Nat.leb]. rewrite <- Hl. apply firstn_all.
Qed.

(** A valid personal id and a valid corporate id, raw and masked. *)
Lemma C4_witness_both_lengths :
  (forallb isDigit (str "52998224725") = true
   /\ formatRegister (str "52998224725") = str "529.982.247-25"
   /\ validateRegister (formatRegister (str "52998224725"))
      = validateRegister (str "52998224725"))
  /\ (forallb isDigit (str "11222333000181") = true
      /\ formatRegister (str "11222333000181") = str "11.222.333/0001-81"
      /\ validateRegister (formatRegister (str "11222333000181"))
         = validateRegister (str "11222333000181")).
Proof.
  assert (H1 : forallb isDigit (str "52998224725") = true)
    by (vm_compute; reflexivity).
  assert (H2 : forallb isDigit (str "11222333000181") = true)
    by (vm_compute; reflexivity).
  assert (F1 : formatRegister (str "52998224725") = str "529.982.247-25")
    by (vm_compute; reflexivity).
  assert (F2 : formatRegister (str "11222333000181")
               = str "11.222.333/0001-81")
    by (vm_compute; reflexivity).
  exact (conj
           (conj H1 (conj F1
              (C4_mask_keeps_the_verdict (str "52998224725") H1
                 (or_introl eq_refl))))
           (conj H2 (conj F2
              (C4_mask_keeps_the_verdict (str "11222333000181") H2
                 (or_intror eq_refl))))).
Defined.

(** ** Person names *)

Section Names.

Lemma streq_eq (a b : jsstring) : streq a b = true <-> a = b.
Proof.
  revert b. induction a as [|x a IH]; intros [|y b]; cbn;
    try (split; [discriminate | discriminate]); [tauto|].
  rewrite andb_true_iff, N.eqb_eq, IH. split.
  - intros [-> ->]. reflexivity.
  - intros E. injection E. auto.
Qed.

Lemma lowerUnit_idempotent (c : N) : lowerUnit (lowerUnit c) = lowerUnit c.
Proof.
  unfold lowerUnit.
  destruct ((65 <=? c) && (c <=? 90))%N eqn:A.
  - apply andb_prop in A as [A1 A2]. apply N.leb_le in A1, A2.
    replace ((65 <=? c + 32) && (c + 32 <=? 90))%N with false
      by (symmetry; apply andb_false_iff; right; apply N.leb_gt; lia).
    replace ((192 <=? c + 32) && (c + 32 <=? 222) && negb (c + 32 =? 215))%N
      with false; [reflexivity|].
    symmetry. rewrite !andb_false_iff. left. left. apply N.leb_gt. lia.
  - destruct ((192 <=? c) && (c <=? 222) && negb (c =? 215))%N eqn:B.
    + apply andb_prop in B as [B B3]. apply andb_prop in B as [B1 B2].
      apply N.leb_le in B1, B2.
      replace ((65 <=? c + 32) && (c + 32 <=? 90))%N with false
        by (symmetry; apply andb_false_iff; right; apply N.leb_gt; lia).
      replace ((192 <=? c + 32) && (c + 32 <=? 222) && negb (c + 32 =? 215))%N
        with false; [reflexivity|].
      symmetry. rewrite !andb_false_iff. left. right. apply N.leb_gt. lia.
    + rewrite A, B. reflexivity.
Qed.

Lemma toLowerCase_lowered (s : jsstring) : Spec.lowered (toLowerCase s).
Proof.
  unfold Spec.lowered, toLowerCase. rewrite map_map.
  apply map_ext. intros c. apply lowerUnit_idempotent.
Qed.

Lemma lowered_cons (c : N) (w : jsstring) :
  Spec.lowered (c :: w) <-> lowerUnit c = c /\ Spec.lowered w.
Proof.
  unfold Spec.lowered, toLowerCase. cbn [map]. split.
  - intros E. injection E. auto.
  - intros [-> ->]. reflexivity.
Qed.

Lemma split_lowered (s : jsstring) :
  Spec.lowered s -> Forall Spec.lowered (split 32 s).
Proof.
  induction s as [|c r IH]; intros H; cbn [split].
  - repeat constructor.
  - apply lowered_cons in H as [Hc Hr]. specialize (IH Hr).
    destruct (N.eqb c 32).
    + constructor; [reflexivity | exact IH].
    + destruct (split 32 r) as [|w ws].
      * repeat constructor. apply lowered_cons. split; [exact Hc|reflexivity].
      * inversion IH; subst. constructor; [|assumption].
        apply lowered_cons. split; assumption.
Qed.

Lemma specialCases_not_empty (w v : jsstring) :
  assoc w specialCases = Some v -> isEmpty v = false.
Proof.
  unfold specialCases. cbn [assoc].
  repeat match goal with
         | |- context [if ?b then _ else _] => destruct b
         end; intros E; try discriminate E;
    injection E as <-; reflexivity.
Qed.

(** Away from the inherited names, the callback gives the form of the
    specification. *)
Lemma formatWord_personWord (w : jsstring) (index : nat) :
  Spec.lowered w -> Spec.inheritedKey w = false ->
  formatWord w index = PString (Spec.personWord w index).
Proof.
  intros Hl Hk. unfold formatWord, Spec.personWord, getSpecialCase.
  cbv zeta. rewrite Hl.
  destruct (assoc w specialCases) as [v|] eqn:E.
  - cbn [truthyProp]. rewrite (specialCases_not_empty _ E). reflexivity.
  - unfold Spec.inheritedKey in Hk.
    apply orb_false_elim in Hk as [Hk H3].
    apply orb_false_elim in Hk as [H1 H2].
    rewrite H1, H2, H3.
    destruct (includes w lowercasePrefixes && negb (index =? 0)%nat);
      reflexivity.
Qed.

Lemma mapIndexFrom_words (l : list jsstring) (i : nat) :
  Forall Spec.lowered l ->
  (forall w, In w l -> Spec.inheritedKey w = false) ->
  mapIndexFrom formatWord i l
  = map PString (mapIndexFrom Spec.personWord i l).
Proof.
  intros Hl. revert i. induction Hl as [|w l Hw Hl IH]; intros i Hk;
    cbn [mapIndexFrom map]; [reflexivity|].
  rewrite formatWord_personWord; [|exact Hw|apply Hk; left; reflexivity].
  rewrite IH; [reflexivity|]. intros; apply Hk; right; assumption.
Qed.

Lemma filter_strings (l : list jsstring) :
  filter notEmptyString (map PString l)
  = map PString (filter (fun w => negb (isEmpty w)) l).
Proof.
  induction l as [|w l IH]; cbn [map filter notEmptyString]; [reflexivity|].
  destruct (negb (isEmpty w)); cbn [map]; rewrite IH; reflexivity.
Qed.

Lemma join_strings (sep : jsstring) (l : list jsstring) :
  join sep (map PString l) = Spec.joinWords sep l.
Proof.
  induction l as [|w l IH]; [reflexivity|].
  destruct l as [|w' l]; [reflexivity|].
  cbn [map join Spec.joinWords propToString] in *. rewrite IH. reflexivity.
Qed.

(** [formatName] is the formatter of the specification on every name
    none of whose words is the name of an inherited member. *)
Lemma formatName_follows_spec (name : option jsstring) :
  match name with
  | Some s =>
      forall w, In w (split 32 (toLowerCase (trim s))) ->
                Spec.inheritedKey w = false
  | None => True
  end ->
  formatName name = Spec.formatPersonName name.
Proof.
  destruct name as [s|]; [|reflexivity].
  intros Hk. unfold formatName, Spec.formatPersonName.
  destruct s as [|c r]; [reflexivity|]. cbn [isEmpty].
  unfold mapIndex.
  rewrite mapIndexFrom_words;
    [|apply split_lowered, toLowerCase_lowered|exact Hk].
  rewrite filter_strings. apply join_strings.
Qed.

(** The samples of the specification: a connector after the first word
    stays in lower case, a roman numeral alone gets its capitals, and an
    empty or missing name gives the empty text. *)
Lemma formatName_samples :
  formatName (Some (str "JO" ++ [195%N] ++ str "O DA SILVA"))
  = str "Jo" ++ [227%N] ++ str "o da Silva"
  /\ formatName (Some (str "ii")) = str "II"
  /\ formatName (Some (str "  maria   de  o' neil  IV e "))
     = str "Maria de O' Neil IV e"
  /\ formatName (Some (str "de souza")) = str "De Souza"
  /\ formatName (Some []) = []
  /\ formatName None = [].
Proof. repeat split; vm_compute; reflexivity. Qed.

End Names.

(** C9. On the name "constructor" the lookup in the table of special
    tokens finds the constructor every object inherits, and the text of
    that function comes back where the specification asks for the word
    in title case; "__proto__" gives the text of an object likewise. *)
Theorem C9_inherited_member_taken_for_special_token :
  formatName (Some (str "constructor"))
  = str "function Object() { [native code] }"
  /\ Spec.formatPersonName (Some (str "constructor")) = str "Constructor"
  /\ formatName (Some (str "Maria Constructor"))
     = str "Maria function Object() { [native code] }"
  /\ formatName (Some (str "__proto__")) = str "[object Object]".
Proof. repeat split; vm_compute; reflexivity. Qed.

(* ================================================================== *)
(** * Further properties *)

(** ** The mask of a tax id, continued *)

Section MaskFacts.

Lemma formatRegister_first14 (value : jsstring) :
  stripNonDigits (formatRegister value) = firstn 14 (stripNonDigits value).
Proof.
  rewrite formatRegister_keeps_digits.
  destruct (length (stripNonDigits value) <=? 11)%nat eqn:E; [|reflexivity].
  apply Nat.leb_le in E. symmetry. apply firstn_all2. lia.
Qed.

Lemma formatRegister_by_digits (a b : jsstring) :
  stripNonDigits a = stripNonDigits b -> formatRegister a = formatRegister b.
Proof.
  intros H. unfold formatRegister.
  destruct a as [|x a], b as [|y b]; cbn [isEmpty]; cbv zeta.
  - reflexivity.
  - rewrite <- H. reflexivity.
  - rewrite H. reflexivity.
  - rewrite H. reflexivity.
Qed.

Lemma length_insert (n : nat) (pre sep s : jsstring) :
  length (pre ++ firstn n s ++ sep ++ skipn n s)
  = (length s + length pre + length sep)%nat.
Proof.
  rewrite !length_app.
  pose proof (firstn_skipn n s) as E. apply (f_equal (@length N)) in E.
  rewrite length_app in E. lia.
Qed.

Lemma length_replaceDigitsDigit (n : nat) (sep s : jsstring) :
  (length (replaceDigitsDigit n sep s) <= length s + length sep)%nat.
Proof.
  induction s as [|c r IH]; cbn [replaceDigitsDigit].
  - pose proof (length_insert n [] sep []) as E. cbn [app length] in E.
    destruct (startsWithDigits (S n) []); cbn [length]; lia.
  - pose proof (length_insert n [] sep (c :: r)) as E.
    cbn [app length] in E.
    destruct (startsWithDigits (S n) (c :: r)); cbn [length]; lia.
Qed.

Lemma length_replaceDigitsTail (n : nat) (sep s : jsstring) :
  (length (replaceDigitsTail n sep s) <= length s + length sep)%nat.
Proof.
  induction s as [|c r IH]; cbn [replaceDigitsTail].
  - pose proof (length_insert n [] sep []) as E. cbn [app length] in E.
    destruct (isDigitsTail n []); cbn [length]; lia.
  - pose proof (length_insert n [] sep (c :: r)) as E.
    cbn [app length] in E.
    destruct (isDigitsTail n (c :: r)); cbn [length]; lia.
Qed.

End MaskFacts.

(** X1. The mask keeps the digits of its input in their order, up to the
    14th, and drops the rest; so the verdict on a masked text is the
    verdict on the first 14 digits of the text. *)
Theorem X1_mask_validates_first_14_digits :
  forall value,
    stripNonDigits (formatRegister value) = firstn 14 (stripNonDigits value)
    /\ validateRegister (formatRegister value)
       = validateRegister (firstn 14 (stripNonDigits value)).
Proof.
  intros value. split; [apply formatRegister_first14|].
  apply validateRegister_by_digits.
  rewrite formatRegister_first14. symmetry.
  apply strip_digits_id, firstn_all_digits, strip_all_digits.
Qed.

(** X2. Masking a masked tax id changes nothing. *)
Theorem X2_formatRegister_idempotent :
  forall value, formatRegister (formatRegister value) = formatRegister value.
Proof.
  intros value.
  set (d := stripNonDigits value).
  assert (Hd : forallb isDigit d = true) by apply strip_all_digits.
  transitivity (formatRegister (firstn 14 d)).
  { apply formatRegister_by_digits. rewrite formatRegister_first14.
    symmetry. apply strip_digits_id, firstn_all_digits, Hd. }
  transitivity (formatRegister d).
  2:{ apply formatRegister_by_digits. apply strip_idempotent. }
  destruct (Nat.le_gt_cases (length d) 14) as [L | L].
  { rewrite firstn_all2 by exact L. reflexivity. }
  assert (L14 : length (firstn 14 d) = 14%nat)
    by (rewrite length_firstn; lia).
  assert (E1 : isEmpty d = false)
    by (destruct d; [cbn in L; lia | reflexivity]).
  assert (E2 : isEmpty (firstn 14 d) = false)
    by (destruct (firstn 14 d); [discriminate L14 | reflexivity]).
  unfold formatRegister. rewrite E1, E2. cbv zeta.
  rewrite (strip_digits_id _ Hd),
    (strip_digits_id _ (firstn_all_digits 14 _ Hd)).
  rewrite L14.
  replace (length d <=? 11)%nat with false
    by (symmetry; apply Nat.leb_gt; lia).
  cbn [Nat.leb]. unfold substring. cbn [skipn Nat.sub].
  rewrite firstn_firstn. reflexivity.
Qed.

(** X3. The masked text is never longer than 18 units: the 14 digits
    kept and the four separators of a corporate id. *)
Theorem X3_formatRegister_at_most_18_units :
  forall value, (length (formatRegister value) <= 18)%nat.
Proof.
  intros value. unfold formatRegister.
  destruct (isEmpty value); [cbn; lia|]. cbv zeta.
  destruct (length (stripNonDigits value) <=? 11)%nat eqn:E.
  - apply Nat.leb_le in E.
    pose proof (length_replaceDigitsTail 3 (str "-")
                  (replaceDigitsDigit 3 (str ".")
                     (replaceDigitsDigit 3 (str ".")
                        (stripNonDigits value)))) as H1.
    pose proof (length_replaceDigitsDigit 3 (str ".")
                  (replaceDigitsDigit 3 (str ".")
                     (stripNonDigits value))) as H2.
    pose proof (length_replaceDigitsDigit 3 (str ".")
                  (stripNonDigits value)) as H3.
    change (length (str "-")) with 1%nat in H1.
    change (length (str ".")) with 1%nat in H2, H3. lia.
  - set (d := substring 0 14 (stripNonDigits value)).
    assert (Hd : (length d <= 14)%nat).
    { unfold d, substring. rewrite length_firstn. lia. }
    pose proof (length_replaceDigitsTail 4 (str "-")
                  (replaceDigitsDigit 3 (str "/")
                     (replaceDigitsDigit 3 (str ".")
                        (replaceDigitsDigit 2 (str ".") d)))) as H1.
    pose proof (length_replaceDigitsDigit 3 (str "/")
                  (replaceDigitsDigit 3 (str ".")
                     (replaceDigitsDigit 2 (str ".") d))) as H2.
    pose proof (length_replaceDigitsDigit 3 (str ".")
                  (replaceDigitsDigit 2 (str ".") d)) as H3.
    pose proof (length_replaceDigitsDigit 2 (str ".") d) as H4.
    change (length (str "-")) with 1%nat in H1.
    change (length (str "/")) with 1%nat in H2.
    change (length (str ".")) with 1%nat in H3, H4. lia.
Qed.

(** ** The shape of the masks *)

Ltac digit_hyps H :=
  cbn [forallb] in H;
  repeat (let Hc := fresh "D" in apply andb_prop in H as [Hc H]).

Ltac run_mask :=
  repeat (progress (unfold isDigitsTail, startsWithDigits;
                    cbn -[isDigit];
                    repeat match goal with
                           | D : isDigit ?c = true |- context [isDigit ?c] =>
                               rewrite D
                           end;
                    change (isDigit 46%N) with false;
                    change (isDigit 45%N) with false;
                    change (isDigit 47%N) with false;
                    change (isDigit 40%N) with false;
                    change (isDigit 41%N) with false;
                    change (isDigit 32%N) with false)).

(** X4. Eleven digits are masked as 000.000.000-00 and fourteen digits
    as 00.000.000/0000-00. *)
Theorem X4_formatRegister_masks :
  (forall c1 c2 c3 c4 c5 c6 c7 c8 c9 c10 c11,
      forallb isDigit [c1; c2; c3; c4; c5; c6; c7; c8; c9; c10; c11] = true ->
      formatRegister [c1; c2; c3; c4; c5; c6; c7; c8; c9; c10; c11]
      = [c1; c2; c3] ++ str "." ++ [c4; c5; c6] ++ str "."
        ++ [c7; c8; c9] ++ str "-" ++ [c10; c11])
  /\ (forall c1 c2 c3 c4 c5 c6 c7 c8 c9 c10 c11 c12 c13 c14,
         forallb isDigit
           [c1; c2; c3; c4; c5; c6; c7; c8; c9; c10; c11; c12; c13; c14]
         = true ->
         formatRegister
           [c1; c2; c3; c4; c5; c6; c7; c8; c9; c10; c11; c12; c13; c14]
         = [c1; c2] ++ str "." ++ [c3; c4; c5] ++ str "."
           ++ [c6; c7; c8] ++ str "/" ++ [c9; c10; c11; c12]
           ++ str "-" ++ [c13; c14]).
Proof.
  split; intros.
  - unfold formatRegister. cbn [isEmpty]. cbv zeta.
    rewrite (strip_digits_id _ H). digit_hyps H. run_mask. reflexivity.
  - unfold formatRegister. cbn [isEmpty]. cbv zeta.
    rewrite (strip_digits_id _ H). digit_hyps H. run_mask. reflexivity.
Qed.

(** The two sample ids, masked. *)
Lemma X4_witness_sample_ids :
  (forallb isDigit (str "52998224725") = true
   /\ formatRegister (str "52998224725") = str "529.982.247-25")
  /\ (forallb isDigit (str "11222333000181") = true
      /\ formatRegister (str "11222333000181") = str "11.222.333/0001-81").
Proof.
  assert (H1 : forallb isDigit (str "52998224725") = true) by reflexivity.
  assert (H2 : forallb isDigit (str "11222333000181") = true) by reflexivity.
  destruct X4_formatRegister_masks as [P Q].
  exact (conj (conj H1 (P _ _ _ _ _ _ _ _ _ _ _ H1))
           (conj H2 (Q _ _ _ _ _ _ _ _ _ _ _ _ _ _ H2))).
Defined.

(** ** Check digits *)

Section CheckDigits.

Lemma digitValue_injective (a b : N) : digitValue a = digitValue b -> a = b.
Proof. unfold digitValue. lia. Qed.

Lemma validateRegister_digits_spec (cs : jsstring) :
  forallb isDigit cs = true ->
  validateRegister cs = Spec.isValidTaxId (map digitValue cs).
Proof.
  intros H. unfold validateRegister. cbv zeta.
  rewrite (strip_digits_id _ H). apply validateRegister_on_digits, H.
Qed.

Lemma check_digits_unique :
  forall body a b a' b',
    forallb isDigit (body ++ [a; b]) = true ->
    forallb isDigit (body ++ [a'; b']) = true ->
    length body = 9%nat \/ length body = 12%nat ->
    validateRegister (body ++ [a; b]) = true ->
    validateRegister (body ++ [a'; b']) = true ->
    a = a' /\ b = b'.
Proof.
  intros body a b a' b' H H' L V V'.
  rewrite (validateRegister_digits_spec _ H) in V.
  rewrite (validateRegister_digits_spec _ H') in V'.
  unfold Spec.isValidTaxId in V, V'. rewrite !length_map, !length_app in V, V'.
  destruct L as [L | L]; rewrite L in V, V'; cbn [length Nat.add] in V, V';
    apply andb_prop in V as [V _]; apply andb_prop in V' as [V' _].
  - unfold Spec.cpfChecksum in V, V'.
    do 9 (destruct body as [|? body]; [discriminate L|]).
    destruct body; [|discriminate L].
    cbn [app map firstn nth] in V, V'.
    apply andb_prop in V as [V1 V2]. apply andb_prop in V' as [V1' V2'].
    apply Z.eqb_eq in V1, V1'.
    assert (Ea : a = a')
      by (apply digitValue_injective; congruence).
    subst a'. split; [reflexivity|].
    apply Z.eqb_eq in V2, V2'.
    apply digitValue_injective. congruence.
  - unfold Spec.cnpjChecksum in V, V'.
    do 12 (destruct body as [|? body]; [discriminate L|]).
    destruct body; [|discriminate L].
    cbn [app map firstn nth] in V, V'.
    apply andb_prop in V as [V1 V2]. apply andb_prop in V' as [V1' V2'].
    apply Z.eqb_eq in V1, V1'.
    assert (Ea : a = a')
      by (apply digitValue_injective; congruence).
    subst a'. split; [reflexivity|].
    apply Z.eqb_eq in V2, V2'.
    apply digitValue_injective. congruence.
Qed.

End CheckDigits.

(** X5. The check digits are determined by the digits before them: a
    valid id of 11 or of 14 digits whose last two digits are replaced by
    another pair of digits is invalid. *)
Theorem X5_altered_check_digits_rejected :
  forall body a b a' b',
    forallb isDigit (body ++ [a; b]) = true ->
    forallb isDigit (body ++ [a'; b']) = true ->
    length body = 9%nat \/ length body = 12%nat ->
    validateRegister (body ++ [a; b]) = true ->
    a <> a' \/ b <> b' ->
    validateRegister (body ++ [a'; b']) = false.
Proof.
  intros body a b a' b' H H' L V N.
  destruct (validateRegister (body ++ [a'; b'])) eqn:V'; [|reflexivity].
  destruct (check_digits_unique body a b a' b' H H' L V V') as [Ea Eb].
  destruct N as [N | N]; contradiction.
Qed.

(** The sample ids with the last digit raised by one. *)
Lemma X5_witness_sample_ids :
  (validateRegister (str "52998224725") = true
   /\ validateRegister (str "52998224726") = false)
  /\ (validateRegister (str "11222333000181") = true
      /\ validateRegister (str "11222333000182") = false).
Proof.
  assert (V1 : validateRegister (str "529982247" ++ [50%N; 53%N]) = true)
    by (vm_compute; reflexivity).
  assert (V2 : validateRegister (str "112223330001" ++ [56%N; 49%N]) = true)
    by (vm_compute; reflexivity).
  split; (split; [assumption|]).
  - apply (@X5_altered_check_digits_rejected (str "529982247")
             50%N 53%N 50%N 54%N eq_refl eq_refl (or_introl eq_refl) V1).
    right. discriminate.
  - apply (@X5_altered_check_digits_rejected (str "112223330001")
             56%N 49%N 56%N 50%N eq_refl eq_refl (or_intror eq_refl) V2).
    right. discriminate.
Defined.

(** ** Phone numbers *)

Section Phones.

Lemma strip_replaceDigitsDigitWith (n : nat) (pre sep s : jsstring) :
  stripNonDigits pre = [] -> stripNonDigits sep = [] ->
  stripNonDigits (replaceDigitsDigitWith n pre sep s) = stripNonDigits s.
Proof.
  intros Hp Hs. induction s as [|c r IH]; cbn [replaceDigitsDigitWith].
  - destruct (startsWithDigits (S n) []); [|reflexivity].
    rewrite strip_app, Hp. apply strip_insert, Hs.
  - destruct (startsWithDigits (S n) (c :: r)).
    + rewrite strip_app, Hp. apply strip_insert, Hs.
    + unfold stripNonDigits in *. cbn [filter]. rewrite IH. reflexivity.
Qed.

Lemma formatPhone_first11 (phone : jsstring) :
  stripNonDigits (formatPhone phone) = firstn 11 (stripNonDigits phone).
Proof.
  unfold formatPhone. destruct phone as [|c r]; [reflexivity|].
  cbn [isEmpty]. cbv zeta. unfold substring. cbn [skipn Nat.sub].
  destruct (length (firstn 11 (stripNonDigits (c :: r))) <=? 10)%nat;
    rewrite strip_replaceDigitsDigit, strip_replaceDigitsDigitWith
      by reflexivity;
    apply strip_digits_id, firstn_all_digits, strip_all_digits.
Qed.

Lemma formatPhone_by_digits (a b : jsstring) :
  stripNonDigits a = stripNonDigits b -> formatPhone a = formatPhone b.
Proof.
  intros H. unfold formatPhone.
  destruct a as [|x a], b as [|y b]; cbn [isEmpty]; cbv zeta.
  - reflexivity.
  - rewrite <- H. reflexivity.
  - rewrite H. reflexivity.
  - rewrite H. reflexivity.
Qed.

(** the verdict of [validatePhone] once the text is known not to be
    empty *)
Lemma validatePhone_by_digits (a b : jsstring) :
  isEmpty a = false -> isEmpty b = false ->
  stripNonDigits a = stripNonDigits b ->
  validatePhone a = validatePhone b.
Proof.
  intros Ha Hb H. unfold validatePhone. rewrite Ha, Hb, H. reflexivity.
Qed.

Lemma isEmpty_false_of_digits (s : jsstring) :
  isEmpty (stripNonDigits s) = false -> isEmpty s = false.
Proof. destruct s; [discriminate | reflexivity]. Qed.

Lemma isRepeatedDigit_other_length (k : nat) (c : N) (r : jsstring) :
  length r <> k -> isRepeatedDigit k (c :: r) = false.
Proof.
  intros H. unfold isRepeatedDigit.
  replace (length r =? k)%nat with false
    by (symmetry; apply Nat.eqb_neq, H).
  rewrite andb_false_r. reflexivity.
Qed.

(** On two digits the comparison of the texts with "11" and "99" is the
    comparison of the number they write with 11. *)
Lemma areaCode_numeric (c1 c2 : N) :
  isDigit c1 = true -> isDigit c2 = true ->
  strLtb [c1; c2] (str "11") || strLtb (str "99") [c1; c2]
  = negb (11 <=? 10 * digitValue c1 + digitValue c2)%Z.
Proof.
  intros H1 H2. apply digitValue_range in H1, H2.
  unfold digitValue in *.
  change (str "11") with [49%N; 49%N]. change (str "99") with [57%N; 57%N].
  cbn [strLtb].
  repeat match goal with
         | |- context [(?a <? ?b)%N] => destruct (N.ltb_spec a b)
         end;
    cbn [orb]; symmetry;
    first [ apply negb_true_iff, Z.leb_gt; lia
          | apply negb_false_iff, Z.leb_le; lia ].
Qed.

Lemma validatePhone_on_digits (cs : jsstring) :
  forallb isDigit cs = true -> isEmpty cs = false ->
  validatePhone cs = Spec.phoneVerdict (map digitValue cs).
Proof.
  intros H Hne. unfold validatePhone, Spec.phoneVerdict.
  rewrite Hne. cbv zeta. rewrite (strip_digits_id _ H), Hne, H, length_map.
  cbn [negb andb].
  destruct cs as [|c1 [|c2 r]]; [discriminate Hne|reflexivity|].
  cbn [forallb] in H. apply andb_prop in H as [H1 H].
  apply andb_prop in H as [H2 H].
  unfold substring. cbn [skipn Nat.sub firstn map nth].
  rewrite (@areaCode_numeric c1 c2 H1 H2).
  destruct (Nat.eq_dec (length (c1 :: c2 :: r)) 10) as [L | L].
  - rewrite L. cbn [Nat.ltb Nat.leb Nat.eqb orb andb].
    rewrite (@isRepeatedDigit_allIdentical 9 c1 (c2 :: r) H1)
      by (cbn [length] in *; lia).
    rewrite isRepeatedDigit_other_length by (cbn [length] in *; lia).
    rewrite orb_false_r. cbn [map].
    destruct (11 <=? 10 * digitValue c1 + digitValue c2)%Z; cbn [negb andb];
      [|reflexivity].
    destruct (Spec.allIdentical _); reflexivity.
  - destruct (Nat.eq_dec (length (c1 :: c2 :: r)) 11) as [L' | L'].
    + rewrite L'. cbn [Nat.ltb Nat.leb Nat.eqb orb andb].
      rewrite (@isRepeatedDigit_allIdentical 10 c1 (c2 :: r) H1)
        by (cbn [length] in *; lia).
      rewrite isRepeatedDigit_other_length by (cbn [length] in *; lia).
      cbn [orb map].
      destruct (11 <=? 10 * digitValue c1 + digitValue c2)%Z;
        cbn [negb andb]; [|reflexivity].
      destruct (Spec.allIdentical _); reflexivity.
    + replace (length (c1 :: c2 :: r) =? 10)%nat with false
        by (symmetry; apply Nat.eqb_neq, L).
      replace (length (c1 :: c2 :: r) =? 11)%nat with false
        by (symmetry; apply Nat.eqb_neq, L').
      cbn [orb andb].
      destruct (length (c1 :: c2 :: r) <? 10)%nat eqn:A; [reflexivity|].
      destruct (11 <? length (c1 :: c2 :: r))%nat eqn:B; [reflexivity|].
      apply Nat.ltb_ge in A, B. lia.
Qed.

End Phones.

(** X6. [validatePhone] accepts the empty text and otherwise judges the
    digits alone: 10 or 11 of them, the first two reading as a number
    from 11 up, and not all the same.  The comparison of the area code
    with the texts "11" and "99" is that numeric test. *)
Theorem X6_validatePhone_reads_digits :
  forall phone,
    validatePhone phone
    = isEmpty phone
      || Spec.phoneVerdict (map digitValue (stripNonDigits phone)).
Proof.
  intros phone. destruct phone as [|c r]; [reflexivity|].
  cbn [isEmpty orb].
  destruct (isEmpty (stripNonDigits (c :: r))) eqn:E.
  - unfold validatePhone. cbn [isEmpty]. cbv zeta. rewrite E.
    destruct (stripNonDigits (c :: r)); [reflexivity | discriminate E].
  - rewrite <- (@validatePhone_on_digits _ (strip_all_digits (c :: r)) E).
    apply validatePhone_by_digits; [reflexivity | exact E|].
    symmetry. apply strip_idempotent.
Qed.

(** X7. The phone mask keeps the digits of its input in their order, up
    to the 11th, and drops the rest; the verdict on a masked text is the
    verdict on those digits, and a text without a digit, masked to the
    empty text, is accepted. *)
Theorem X7_phone_mask_validates_first_11_digits :
  forall phone,
    stripNonDigits (formatPhone phone) = firstn 11 (stripNonDigits phone)
    /\ validatePhone (formatPhone phone)
       = validatePhone (firstn 11 (stripNonDigits phone))
    /\ (stripNonDigits phone = [] ->
        formatPhone phone = [] /\ validatePhone (formatPhone phone) = true).
Proof.
  intros phone.
  assert (D : stripNonDigits (formatPhone phone)
              = firstn 11 (stripNonDigits phone))
    by apply formatPhone_first11.
  assert (Z : stripNonDigits phone = [] -> formatPhone phone = []).
  { intros E. rewrite (formatPhone_by_digits phone [] E). reflexivity. }
  split; [exact D|]. split.
  - destruct (stripNonDigits phone) as [|c r] eqn:E.
    + rewrite (Z eq_refl). reflexivity.
    + assert (N1 : isEmpty (firstn 11 (c :: r)) = false) by reflexivity.
      apply validatePhone_by_digits; [|exact N1|].
      * apply isEmpty_false_of_digits. rewrite D. exact N1.
      * rewrite D. symmetry. apply strip_digits_id, firstn_all_digits.
        rewrite <- E. apply strip_all_digits.
  - intros E. rewrite (Z E). split; reflexivity.
Qed.

(** A text without a digit: rejected as typed, accepted once masked. *)
Lemma X7_witness_letters_only :
  stripNonDigits (str "abc") = []
  /\ validatePhone (str "abc") = false
  /\ formatPhone (str "abc") = []
  /\ validatePhone (formatPhone (str "abc")) = true.
Proof.
  assert (E : stripNonDigits (str "abc") = []) by reflexivity.
  destruct (X7_phone_mask_validates_first_11_digits (str "abc"))
    as (_ & _ & Z).
  destruct (Z E) as [F V].
  exact (conj E (conj eq_refl (conj F V))).
Defined.

(** X8. Masking a masked phone changes nothing. *)
Theorem X8_formatPhone_idempotent :
  forall phone, formatPhone (formatPhone phone) = formatPhone phone.
Proof.
  intros phone.
  set (d := stripNonDigits phone).
  assert (Hd : forallb isDigit d = true) by apply strip_all_digits.
  transitivity (formatPhone (firstn 11 d)).
  { apply formatPhone_by_digits. rewrite formatPhone_first11.
    symmetry. apply strip_digits_id, firstn_all_digits, Hd. }
  transitivity (formatPhone d).
  2:{ apply formatPhone_by_digits. apply strip_idempotent. }
  destruct d as [|c r] eqn:Ed; [reflexivity|]. rewrite <- Ed in *.
  assert (E1 : isEmpty d = false) by (rewrite Ed; reflexivity).
  assert (E2 : isEmpty (firstn 11 d) = false) by (rewrite Ed; reflexivity).
  unfold formatPhone. rewrite E1, E2. cbv zeta.
  rewrite (strip_digits_id _ Hd),
    (strip_digits_id _ (firstn_all_digits 11 _ Hd)).
  unfold substring. cbn [skipn Nat.sub].
  rewrite firstn_firstn. reflexivity.
Qed.

(** X9. Ten digits are masked as (00) 0000-0000 and eleven digits as
    (00) 00000-0000. *)
Theorem X9_formatPhone_masks :
  (forall c1 c2 c3 c4 c5 c6 c7 c8 c9 c10,
      forallb isDigit [c1; c2; c3; c4; c5; c6; c7; c8; c9; c10] = true ->
      formatPhone [c1; c2; c3; c4; c5; c6; c7; c8; c9; c10]
      = str "(" ++ [c1; c2] ++ str ") " ++ [c3; c4; c5; c6]
        ++ str "-" ++ [c7; c8; c9; c10])
  /\ (forall c1 c2 c3 c4 c5 c6 c7 c8 c9 c10 c11,
         forallb isDigit [c1; c2; c3; c4; c5; c6; c7; c8; c9; c10; c11]
         = true ->
         formatPhone [c1; c2; c3; c4; c5; c6; c7; c8; c9; c10; c11]
         = str "(" ++ [c1; c2] ++ str ") " ++ [c3; c4; c5; c6; c7]
           ++ str "-" ++ [c8; c9; c10; c11]).
Proof.
  split; intros.
  - unfold formatPhone. cbn [isEmpty]. cbv zeta.
    rewrite (strip_digits_id _ H). digit_hyps H. run_mask. reflexivity.
  - unfold formatPhone. cbn [isEmpty]. cbv zeta.
    rewrite (strip_digits_id _ H). digit_hyps H. run_mask. reflexivity.
Qed.

(** A fixed line and a mobile number, masked. *)
Lemma X9_witness_two_numbers :
  (forallb isDigit (str "3133334444") = true
   /\ formatPhone (str "3133334444") = str "(31) 3333-4444")
  /\ (forallb isDigit (str "31987654321") = true
      /\ formatPhone (str "31987654321") = str "(31) 98765-4321").
Proof.
  assert (H1 : forallb isDigit (str "3133334444") = true) by reflexivity.
  assert (H2 : forallb isDigit (str "31987654321") = true) by reflexivity.
  destruct X9_formatPhone_masks as [P Q].
  exact (conj (conj H1 (P _ _ _ _ _ _ _ _ _ _ H1))
           (conj H2 (Q _ _ _ _ _ _ _ _ _ _ _ H2))).
Defined.

(** ** Spaces in a formatted name *)

Section NameSpaces.

Lemma split_cons (sep : N) (s : jsstring) :
  exists w ws, split sep s = w :: ws.
Proof.
  induction s as [|c r [w [ws IH]]]; cbn [split]; [eauto|].
  destruct (N.eqb c sep); [eauto|]. rewrite IH. eauto.
Qed.

Lemma split_app_sep (sep : N) (a b : jsstring) :
  split sep (a ++ sep :: b) = split sep a ++ split sep b.
Proof.
  induction a as [|c a IH]; cbn [app split].
  - rewrite N.eqb_refl. reflexivity.
  - destruct (N.eqb c sep); rewrite IH; [reflexivity|].
    destruct (split_cons sep a) as (w & ws & ->). reflexivity.
Qed.

Lemma split_no_sep (sep : N) (s : jsstring) :
  forallb (fun c => negb (N.eqb c sep)) s = true -> split sep s = [s].
Proof.
  induction s as [|c r IH]; cbn [forallb split]; [reflexivity|].
  intros H. apply andb_prop in H as [Hc Hr].
  apply negb_true_iff in Hc. rewrite Hc, (IH Hr). reflexivity.
Qed.

Lemma split_pieces_spaceFree (s : jsstring) :
  Forall (fun w => Spec.spaceFree w = true) (split 32 s).
Proof.
  induction s as [|c r IH]; cbn [split].
  - repeat constructor.
  - destruct (N.eqb c 32) eqn:E.
    + constructor; [reflexivity | exact IH].
    + destruct (split 32 r) as [|w ws]; [repeat constructor|].
      * unfold Spec.spaceFree. cbn [forallb]. rewrite E. reflexivity.
      * inversion IH; subst. constructor; [|assumption].
        unfold Spec.spaceFree in *. cbn [forallb]. rewrite E. assumption.
Qed.

Lemma lowerUnit_not_space (c : N) :
  N.eqb c 32 = false -> N.eqb (lowerUnit c) 32 = false.
Proof.
  intros H. apply N.eqb_neq in H. apply N.eqb_neq. unfold lowerUnit.
  destruct ((65 <=? c) && (c <=? 90))%N eqn:A.
  { apply andb_prop in A as [A1 A2]. apply N.leb_le in A1. lia. }
  destruct ((192 <=? c) && (c <=? 222) && negb (c =? 215))%N eqn:B;
    [|exact H].
  apply andb_prop in B as [B _]. apply andb_prop in B as [B1 B2].
  apply N.leb_le in B1. lia.
Qed.

Lemma upperUnit_spaceFree (c : N) :
  N.eqb c 32 = false -> Spec.spaceFree (upperUnit c) = true.
Proof.
  intros H. apply N.eqb_neq in H. unfold upperUnit, Spec.spaceFree.
  destruct ((97 <=? c) && (c <=? 122))%N eqn:A.
  { apply andb_prop in A as [A1 A2]. apply N.leb_le in A1, A2.
    cbn [forallb]. rewrite andb_true_r. apply negb_true_iff, N.eqb_neq. lia. }
  destruct ((224 <=? c) && (c <=? 254) && negb (c =? 247))%N eqn:B.
  { apply andb_prop in B as [B _]. apply andb_prop in B as [B1 B2].
    apply N.leb_le in B1, B2.
    cbn [forallb]. rewrite andb_true_r. apply negb_true_iff, N.eqb_neq. lia. }
  repeat match goal with
         | |- context [if ?b then _ else _] => destruct b
         end; try reflexivity.
  cbn [forallb]. rewrite andb_true_r. apply negb_true_iff, N.eqb_neq. lia.
Qed.

Lemma spaceFree_app (a b : jsstring) :
  Spec.spaceFree (a ++ b) = Spec.spaceFree a && Spec.spaceFree b.
Proof. apply forallb_app. Qed.

Lemma toLowerCase_spaceFree (w : jsstring) :
  Spec.spaceFree w = true -> Spec.spaceFree (toLowerCase w) = true.
Proof.
  unfold Spec.spaceFree, toLowerCase. induction w as [|c r IH]; cbn [map forallb];
    [reflexivity|].
  intros H. apply andb_prop in H as [Hc Hr]. apply negb_true_iff in Hc.
  rewrite (lowerUnit_not_space _ Hc), (IH Hr). reflexivity.
Qed.

Lemma titleCase_spaceFree (w : jsstring) :
  Spec.spaceFree w = true -> Spec.spaceFree (Spec.titleCase w) = true.
Proof.
  unfold Spec.titleCase, charAt0, slice1. destruct w as [|c r];
    [reflexivity|].
  unfold Spec.spaceFree at 1. cbn [forallb firstn skipn toUpperCase flat_map].
  intros H. apply andb_prop in H as [Hc Hr]. apply negb_true_iff in Hc.
  rewrite app_nil_r, spaceFree_app, (upperUnit_spaceFree _ Hc).
  exact Hr.
Qed.

Lemma specialCases_spaceFree (w v : jsstring) :
  assoc w specialCases = Some v -> Spec.spaceFree v = true.
Proof.
  unfold specialCases. cbn [assoc].
  repeat match goal with
         | |- context [if ?b then _ else _] => destruct b
         end; intros E; try discriminate E;
    injection E as <-; reflexivity.
Qed.

Lemma singleSpaced_spaceFree (w : jsstring) :
  isEmpty w = false -> Spec.spaceFree w = true -> Spec.singleSpaced w = true.
Proof.
  intros Hne Hs. unfold Spec.singleSpaced.
  rewrite (split_no_sep 32 w Hs). cbn [forallb]. rewrite Hne. reflexivity.
Qed.

(** What the callback gives for a word cut out at the spaces that is
    not the name of an inherited member. *)
Lemma formatWord_singleSpaced (w : jsstring) (index : nat) :
  Spec.spaceFree w = true ->
  Spec.inheritedKey (toLowerCase w) = false ->
  notEmptyString (formatWord w index) = true ->
  Spec.singleSpaced (propToString (formatWord w index)) = true.
Proof.
  intros Hw Hk. pose proof (toLowerCase_spaceFree _ Hw) as Hl.
  unfold formatWord. cbv zeta. unfold getSpecialCase.
  destruct (assoc (toLowerCase w) specialCases) as [v|] eqn:E.
  - cbn [truthyProp]. rewrite (specialCases_not_empty _ E). cbn [negb].
    intros _. apply singleSpaced_spaceFree;
      [apply (specialCases_not_empty _ E) | apply (specialCases_spaceFree _ E)].
  - unfold Spec.inheritedKey in Hk.
    apply orb_false_elim in Hk as [Hk H3].
    apply orb_false_elim in Hk as [H1 H2].
    rewrite H1, H2, H3.
    destruct (includes (toLowerCase w) lowercasePrefixes
              && negb (index =? 0)%nat);
      cbn [notEmptyString propToString]; intros N;
      apply negb_true_iff in N; apply singleSpaced_spaceFree;
      [exact N | exact Hl | exact N | apply titleCase_spaceFree, Hw].
Qed.

Lemma singleSpaced_join (l : list propValue) :
  Forall (fun v => Spec.singleSpaced (propToString v) = true) l ->
  l <> [] ->
  Spec.singleSpaced (join (str " ") l) = true.
Proof.
  induction 1 as [|v l Hv Hl IH]; [congruence|]. intros _.
  destruct l as [|v' l]; [exact Hv|].
  change (join (str " ") (v :: v' :: l))
    with (propToString v ++ 32%N :: join (str " ") (v' :: l)).
  unfold Spec.singleSpaced in *. rewrite split_app_sep, forallb_app, Hv.
  apply IH. discriminate.
Qed.

Lemma mapIndexFrom_Forall {A B : Type} (P : A -> Prop) (Q : B -> Prop)
  (f : A -> nat -> B) (l : list A) (i : nat) :
  (forall x n, P x -> Q (f x n)) ->
  Forall P l -> Forall Q (mapIndexFrom f i l).
Proof.
  intros Hf H. revert i. induction H as [|x l Hx Hl IH]; intros i;
    cbn [mapIndexFrom]; constructor; auto.
Qed.

End NameSpaces.

(** X10. For a name none of whose words is the name of a member that
    objects inherit, the formatted text is empty or single spaced: it
    neither starts nor ends with a space and has no two spaces in a
    row. *)
Theorem X10_formatName_single_spaced :
  forall s,
    (forall w, In w (split 32 (toLowerCase (trim s))) ->
               Spec.inheritedKey w = false) ->
    isEmpty (formatName (Some s))
    || Spec.singleSpaced (formatName (Some s)) = true.
Proof.
  intros s Hk. unfold formatName.
  destruct (isEmpty s); [reflexivity|].
  set (words := split 32 (toLowerCase (trim s))) in *.
  set (kept := filter notEmptyString (mapIndex formatWord words)).
  destruct kept as [|v l] eqn:E; [reflexivity|].
  rewrite <- E. apply orb_true_iff. right.
  apply singleSpaced_join; [|rewrite E; discriminate].
  apply Forall_forall. intros x Hx. unfold kept in Hx.
  apply filter_In in Hx as [Hx Hn].
  assert (F : Forall
                (fun v =>
                   notEmptyString v = true ->
                   Spec.singleSpaced (propToString v) = true)
                (mapIndex formatWord words)).
  { unfold mapIndex.
    apply (@mapIndexFrom_Forall _ _
             (fun w =>
                Spec.spaceFree w = true
                /\ Spec.inheritedKey (toLowerCase w) = false)
             (fun v =>
                notEmptyString v = true ->
                Spec.singleSpaced (propToString v) = true)).
    - intros w n [Hw Hi]. apply formatWord_singleSpaced; assumption.
    - apply Forall_forall. intros w Hw. split.
      + pose proof (split_pieces_spaceFree (toLowerCase (trim s))) as P.
        rewrite Forall_forall in P. apply P, Hw.
      + pose proof (split_lowered (toLowerCase_lowered (trim s))) as L.
        rewrite Forall_forall in L. rewrite (L w Hw). apply Hk, Hw. }
  rewrite Forall_forall in F. apply F; assumption.
Qed.

(** A name with spaces around and between its words. *)
Lemma X10_witness_maria_de_souza :
  let s := str "  maria   de  SOUZA " in
  formatName (Some s) = str "Maria de Souza"
  /\ isEmpty (formatName (Some s))
     || Spec.singleSpaced (formatName (Some s)) = true.
Proof.
  intros s. split; [vm_compute; reflexivity|].
  apply (X10_formatName_single_spaced s).
  intros w Hw. vm_compute in Hw.
  repeat (destruct Hw as [<-|Hw]; [reflexivity|]). contradiction.
Defined.

(** ** Trimming *)

Section Trimming.

Lemma trimStart_split (s : jsstring) :
  exists pre, s = pre ++ trimStart s.
Proof.
  induction s as [|c r [pre IH]]; [exists []; reflexivity|].
  cbn [trimStart]. destruct (isWhiteSpace c).
  - exists (c :: pre). cbn [app]. rewrite <- IH. reflexivity.
  - exists []. reflexivity.
Qed.

Lemma trimStart_head (s : jsstring) (c : N) (r : jsstring) :
  trimStart s = c :: r -> isWhiteSpace c = false.
Proof.
  induction s as [|x s IH]; cbn [trimStart]; [discriminate|].
  destruct (isWhiteSpace x) eqn:E; [exact IH|].
  intros H. injection H as <- _. exact E.
Qed.

Lemma trimStart_fixed (c : N) (r : jsstring) :
  isWhiteSpace c = false -> trimStart (c :: r) = c :: r.
Proof. intros H. cbn [trimStart]. rewrite H. reflexivity. Qed.

(** A trimmed text that is not empty starts with a unit that is not
    white space. *)
Lemma trim_head (s : jsstring) (c : N) (r : jsstring) :
  trim s = c :: r -> isWhiteSpace c = false.
Proof.
  unfold trim. intros H.
  destruct (trimStart_split (rev (trimStart s))) as [pre E].
  apply (f_equal (@rev N)) in E. rewrite rev_involutive, rev_app_distr in E.
  rewrite H in E. cbn [app] in E.
  apply (@trimStart_head s _ _ E).
Qed.

Lemma trim_idempotent (s : jsstring) : trim (trim s) = trim s.
Proof.
  destruct (trim s) as [|c r] eqn:E; [reflexivity|].
  pose proof (@trim_head s c r E) as Hc.
  unfold trim at 1. rewrite (@trimStart_fixed c r Hc).
  unfold trim in E. apply (f_equal (@rev N)) in E.
  rewrite rev_involutive in E.
  destruct (rev (c :: r)) as [|x y] eqn:R.
  - apply (f_equal (@length N)) in R. rewrite length_rev in R.
    discriminate R.
  - rewrite (@trimStart_fixed x y (@trimStart_head _ x y E)).
    rewrite <- R. apply rev_involutive.
Qed.

Lemma propToString_not_empty (v : propValue) :
  notEmptyString v = true -> isEmpty (propToString v) = false.
Proof.
  destruct v as [s | name |]; cbn [notEmptyString propToString];
    [apply negb_true_iff | reflexivity | reflexivity].
Qed.

Lemma formatWord_first_not_empty (c : N) (w : jsstring) :
  notEmptyString (formatWord (c :: w) 0) = true.
Proof.
  unfold formatWord. cbv zeta. unfold getSpecialCase.
  destruct (assoc (toLowerCase (c :: w)) specialCases) as [v|] eqn:E.
  - cbn [truthyProp]. rewrite (specialCases_not_empty _ E). cbn [negb].
    cbn [notEmptyString]. rewrite (specialCases_not_empty _ E). reflexivity.
  - rewrite andb_false_r.
    assert (T : notEmptyString
                  (PString (toUpperCase (charAt0 (c :: w)) ++ slice1 (c :: w)))
                = true).
    { cbn [notEmptyString charAt0 firstn toUpperCase flat_map].
      rewrite app_nil_r. unfold upperUnit.
      repeat match goal with
             | |- context [if ?b then _ else _] => destruct b
             end; reflexivity. }
    repeat match goal with
           | |- context [if ?b then _ else _] => destruct b
           end; first [reflexivity | exact T].
Qed.

End Trimming.

Lemma formatName_blank :
  forall s, isEmpty (formatName (Some s)) = isEmpty (trim s).
Proof.
  intros s. unfold formatName.
  destruct (isEmpty s) eqn:Es.
  { destruct s; [reflexivity | discriminate Es]. }
  destruct (trim s) as [|c r] eqn:E; [reflexivity|].
  pose proof (@trim_head s c r E) as Hc.
  assert (H32 : N.eqb (lowerUnit c) 32 = false).
  { apply lowerUnit_not_space. destruct (N.eqb_spec c 32) as [->|];
      [discriminate Hc | reflexivity]. }
  cbn [toLowerCase map split]. rewrite H32.
  destruct (split_cons 32 (map lowerUnit r)) as (w & ws & ->).
  unfold mapIndex. cbn [mapIndexFrom filter].
  pose proof (formatWord_first_not_empty (lowerUnit c) w) as F.
  rewrite F. cbn [isEmpty].
  apply propToString_not_empty in F.
  destruct (filter notEmptyString (mapIndexFrom formatWord 1 ws));
    cbn [join]; [exact F|].
  destruct (propToString (formatWord (lowerUnit c :: w) 0));
    [discriminate F | reflexivity].
Qed.

(** X11. The formatted name is the empty text exactly when the name,
    trimmed, is empty: a name of white space only gives the empty text,
    any other name gives some text. *)
Theorem X11_formatName_empty_only_for_blank :
  forall s, isEmpty (formatName (Some s)) = isEmpty (trim s).
Proof. exact formatName_blank. Qed.

(** X12. White space around a name never changes the verdict of
    [validateName]; and a name it accepts is never formatted to the
    empty text. *)
Theorem X12_validateName_ignores_outer_space :
  forall name,
    validateName (trim name) = validateName name
    /\ (validateName name = true ->
        isEmpty (formatName (Some name)) = false).
Proof.
  intros name. split.
  - unfold validateName. rewrite trim_idempotent.
    destruct name as [|c r]; [reflexivity|]. cbn [isEmpty].
    destruct (trim (c :: r)) as [|x y]; reflexivity.
  - intros V. rewrite formatName_blank.
    unfold validateName in V.
    destruct (isEmpty name); [discriminate V|]. cbv zeta in V.
    destruct (trim name) as [|x y]; [discriminate V | reflexivity].
Qed.

(** A name with spaces around it. *)
Lemma X12_witness_ana_maria :
  validateName (str " Ana Maria ") = true
  /\ validateName (trim (str " Ana Maria ")) = true
  /\ isEmpty (formatName (Some (str " Ana Maria "))) = false.
Proof.
  assert (V : validateName (str " Ana Maria ") = true)
    by (vm_compute; reflexivity).
  destruct (X12_validateName_ignores_outer_space (str " Ana Maria "))
    as [T F].
  refine (conj V (conj _ (F V))). rewrite T. exact V.
Defined.

(** ** The cash summary *)

Section CashFacts.

Local Open Scope js_scope.

Lemma openingBalance_signedSum (l : list CashTransaction.t) (year month : Z) :
  Cash.openingBalance l (Some (year, month))
  = Fin (Spec.signedSum
           (filter (fun t => Spec.isPaid t && Spec.beforeMonth year month t)
              l)).
Proof.
  unfold Cash.openingBalance.
  change (ofZ 0) with (Fin 0%Qc). rewrite fold_addPaid.
  rewrite filter_filter_andb. apply (f_equal Fin), Qcplus_0_l.
Qed.

Lemma status_beq_paid (t : CashTransaction.t) :
  TransactionStatus_beq (CashTransaction.status t) PAID = Spec.isPaid t.
Proof. unfold Spec.isPaid. destruct (CashTransaction.status t); reflexivity. Qed.

End CashFacts.

(** X13. Every figure of the cash summary comes from paid transactions
    alone: with the pending transactions taken out of the list, the
    summary is the same. *)
Theorem X13_summary_ignores_pending :
  forall transactions c,
    Cash.summary (filter Spec.isPaid transactions) c
    = Cash.summary transactions c.
Proof.
  intros transactions [[year month]|]; [|reflexivity].
  unfold Cash.summary.
  assert (O : Cash.openingBalance (filter Spec.isPaid transactions)
                (Some (year, month))
              = Cash.openingBalance transactions (Some (year, month))).
  { rewrite !openingBalance_signedSum, filter_filter_andb.
    do 2 f_equal. apply filter_ext. intros t.
    destruct (Spec.isPaid t), (Spec.beforeMonth year month t); reflexivity. }
  assert (P : filter
                (fun t => TransactionStatus_beq (CashTransaction.status t) PAID)
                (Cash.transactionsForCompetency
                   (filter Spec.isPaid transactions) (Some (year, month)))
              = filter
                  (fun t =>
                     TransactionStatus_beq (CashTransaction.status t) PAID)
                  (Cash.transactionsForCompetency transactions
                     (Some (year, month)))).
  { unfold Cash.transactionsForCompetency.
    rewrite !filter_filter_andb. apply filter_ext. intros t.
    rewrite status_beq_paid. destruct (Spec.isPaid t); cbn [andb];
      [|reflexivity].
    rewrite andb_true_r. reflexivity. }
  cbv zeta. rewrite O, P. reflexivity.
Qed.

(** ** Months *)

Section MonthFacts.

Lemma ltb_lex (a b : Date.t) :
  Date.ltb a b = true <->
  (Date.getFullYear a < Date.getFullYear b
   \/ Date.getFullYear a = Date.getFullYear b
      /\ (Date.getMonth a < Date.getMonth b
          \/ Date.getMonth a = Date.getMonth b
             /\ (Date.getDate a < Date.getDate b
                 \/ Date.getDate a = Date.getDate b
                    /\ Date.msOfDay a < Date.msOfDay b)))%Z.
Proof.
  unfold Date.ltb, Date.compare.
  destruct (Z.compare_spec (Date.getFullYear a) (Date.getFullYear b));
    destruct (Z.compare_spec (Date.getMonth a) (Date.getMonth b));
    destruct (Z.compare_spec (Date.getDate a) (Date.getDate b));
    destruct (Z.compare_spec (Date.msOfDay a) (Date.msOfDay b));
    split; intros; try discriminate; try reflexivity; lia.
Qed.

Lemma leb_lex (a b : Date.t) :
  Date.leb a b = true <->
  (Date.getFullYear a < Date.getFullYear b
   \/ Date.getFullYear a = Date.getFullYear b
      /\ (Date.getMonth a < Date.getMonth b
          \/ Date.getMonth a = Date.getMonth b
             /\ (Date.getDate a < Date.getDate b
                 \/ Date.getDate a = Date.getDate b
                    /\ Date.msOfDay a <= Date.msOfDay b)))%Z.
Proof.
  unfold Date.leb, Date.compare.
  destruct (Z.compare_spec (Date.getFullYear a) (Date.getFullYear b));
    destruct (Z.compare_spec (Date.getMonth a) (Date.getMonth b));
    destruct (Z.compare_spec (Date.getDate a) (Date.getDate b));
    destruct (Z.compare_spec (Date.msOfDay a) (Date.msOfDay b));
    split; intros; try discriminate; try reflexivity; lia.
Qed.

Lemma validDate_bounds (d : Date.t) :
  Spec.validDate d = true ->
  (0 <= Date.getMonth d <= 11
   /\ 1 <= Date.getDate d <= Date.daysIn (Date.getFullYear d) (Date.getMonth d)
   /\ 0 <= Date.msOfDay d <= 86399999)%Z.
Proof.
  unfold Spec.validDate. rewrite !andb_true_iff, !Z.leb_le. tauto.
Qed.

Lemma fullYear_late (y : Z) : (100 <= y)%Z -> Date.fullYear y = y.
Proof.
  intros H. unfold Date.fullYear.
  replace (y <=? 99)%Z with false by (symmetry; apply Z.leb_gt; lia).
  rewrite andb_false_r. reflexivity.
Qed.

Lemma firstOfMonth_plain (y m : Z) :
  (100 <= y)%Z -> (1 <= m <= 12)%Z ->
  Date.firstOfMonth y (m - 1) = Date.mk y (m - 1) 1 0.
Proof.
  intros Hy Hm. unfold Date.firstOfMonth.
  rewrite (fullYear_late Hy), Z.div_small, Z.mod_small by lia.
  f_equal. lia.
Qed.

Lemma endOfMonth_plain (y m : Z) :
  (100 <= y)%Z -> (1 <= m <= 12)%Z ->
  Date.endOfMonthBefore y m
  = Date.mk y (m - 1) (Date.daysIn y (m - 1)) 86399999.
Proof.
  intros Hy Hm. unfold Date.endOfMonthBefore. cbv zeta.
  rewrite (fullYear_late Hy), Z.div_small, Z.mod_small by lia.
  rewrite Z.add_0_r. reflexivity.
Qed.

(** On a date of the calendar, the range test of the dashboard and the
    year-and-month test of the cash view agree. *)
Lemma inMonth_by_fields (y m : Z) (d : Date.t) :
  (100 <= y)%Z -> (1 <= m <= 12)%Z -> Spec.validDate d = true ->
  Dashboard.inMonth (Some (y, m)) d
  = ((Date.getFullYear d =? y) && (Date.getMonth d + 1 =? m))%Z.
Proof.
  intros Hy Hm Hd. apply validDate_bounds in Hd.
  unfold Dashboard.inMonth, Dashboard.startOfMonth, Dashboard.endOfMonth.
  rewrite (firstOfMonth_plain Hy Hm), (endOfMonth_plain Hy Hm).
  apply eq_iff_eq_true. unfold Date.geb.
  rewrite !andb_true_iff, !leb_lex, !Z.eqb_eq. cbn [Date.getFullYear
    Date.getMonth Date.getDate Date.msOfDay].
  split.
  - intros [A B]. lia.
  - intros [E0 E]. subst y.
    replace (m - 1)%Z with (Date.getMonth d) by lia. lia.
Qed.

End MonthFacts.

(** ** The balance from month to month *)

Section BalanceFacts.

Local Open Scope js_scope.

Lemma beforeMonth_next (y m : Z) (t : CashTransaction.t) :
  (100 <= y)%Z -> (1 <= m <= 12)%Z ->
  Spec.validDate (CashTransaction.timestamp t) = true ->
  Spec.beforeMonth (fst (Spec.nextMonth y m)) (snd (Spec.nextMonth y m)) t
  = Spec.beforeMonth y m t
    || ((Date.getFullYear (CashTransaction.timestamp t) =? y)
        && (Date.getMonth (CashTransaction.timestamp t) + 1 =? m))%Z
  /\ Spec.beforeMonth y m t
     && ((Date.getFullYear (CashTransaction.timestamp t) =? y)
         && (Date.getMonth (CashTransaction.timestamp t) + 1 =? m))%Z
     = false.
Proof.
  intros Hy Hm Hd. apply validDate_bounds in Hd.
  unfold Spec.beforeMonth. rewrite (firstOfMonth_plain Hy Hm).
  split.
  - unfold Spec.nextMonth. destruct (Z.eqb_spec m 12) as [E|E];
      cbn [fst snd].
    + rewrite (@firstOfMonth_plain (y + 1) 1) by lia.
      apply eq_iff_eq_true.
      rewrite orb_true_iff, andb_true_iff, !ltb_lex, !Z.eqb_eq.
      cbn [Date.getFullYear Date.getMonth Date.getDate Date.msOfDay]. lia.
    + rewrite (@firstOfMonth_plain y (m + 1)) by lia.
      apply eq_iff_eq_true.
      rewrite orb_true_iff, andb_true_iff, !ltb_lex, !Z.eqb_eq.
      cbn [Date.getFullYear Date.getMonth Date.getDate Date.msOfDay]. lia.
  - apply not_true_is_false.
    rewrite !andb_true_iff, ltb_lex, !Z.eqb_eq.
    cbn [Date.getFullYear Date.getMonth Date.getDate Date.msOfDay]. lia.
Qed.

Lemma filter_split {A : Type} (p q r : A -> bool) (l : list A) :
  (forall x, In x l -> r x = p x || q x /\ p x && q x = false) ->
  Permutation (filter r l) (filter p l ++ filter q l).
Proof.
  induction l as [|x l IH]; intros H; cbn [filter]; [reflexivity|].
  destruct (H x (or_introl eq_refl)) as [-> X].
  assert (IH' := IH (fun y Hy => H y (or_intror Hy))).
  destruct (p x), (q x); try discriminate X; cbn [orb app].
  - constructor. exact IH'.
  - rewrite IH'. apply Permutation_middle.
  - exact IH'.
Qed.

End BalanceFacts.

(** X15. The months tile the time line: for a month of a year from 100
    on and transactions dated on the calendar, the transactions dated
    before the first instant of the next month are those dated before
    the first instant of the month together with those of the month,
    each one once.  So what enters the opening balance of the next
    month is what enters this month's opening balance and this month's
    movements. *)
Theorem X15_next_month_opens_after_the_month :
  forall transactions year month,
    (100 <= year)%Z -> (1 <= month <= 12)%Z ->
    forallb (fun t => Spec.validDate (CashTransaction.timestamp t))
      transactions = true ->
    Permutation
      (filter
         (Spec.beforeMonth (fst (Spec.nextMonth year month))
            (snd (Spec.nextMonth year month)))
         transactions)
      (filter (Spec.beforeMonth year month) transactions
       ++ Cash.transactionsForCompetency transactions (Some (year, month))).
Proof.
  intros transactions year month Hy Hm Hv.
  unfold Cash.transactionsForCompetency. apply filter_split.
  intros t Ht. rewrite forallb_forall in Hv.
  exact (@beforeMonth_next year month t Hy Hm (Hv t Ht)).
Qed.

(** December 2023: a sale of November and two movements of December;
    January 2024 opens after all three. *)
Lemma X15_witness_december_2023 :
  let november := CashTransaction.mk (Q2Qc 300) INCOME SALES_REVENUE PAID
                    (Date.mk 2023 10 30 0) in
  let december := CashTransaction.mk (Q2Qc 700) INCOME SALES_REVENUE PAID
                    (Date.mk 2023 11 31 86399999) in
  let january := CashTransaction.mk (Q2Qc 400) EXPENSE RENT PAID
                   (Date.mk 2024 0 1 0) in
  Spec.nextMonth 2023 12 = (2024, 1)%Z
  /\ filter (Spec.beforeMonth 2024 1) [november; january; december]
     = [november; december]
  /\ Permutation
       (filter
          (Spec.beforeMonth (fst (Spec.nextMonth 2023 12))
             (snd (Spec.nextMonth 2023 12)))
          [november; january; december])
       (filter (Spec.beforeMonth 2023 12) [november; january; december]
        ++ Cash.transactionsForCompetency [november; january; december]
             (Some (2023, 12)%Z)).
Proof.
  intros november december january.
  split; [reflexivity|]. split; [reflexivity|].
  apply (@X15_next_month_opens_after_the_month
           [november; january; december] 2023 12);
    [lia | lia | reflexivity].
Defined.

(** ** The pages of the cash table *)

Section PageFacts.

Lemma nPages_div {A : Type} (l : list A) :
  Cash.nPages l = ((length l + 14) / 15)%nat.
Proof.
  unfold Cash.nPages, Cash.recordsPerPage, Qceiling, Qfloor.
  cbn [Qopp Qnum Qden]. change (Z.pos (Pos.of_nat 15)) with 15%Z.
  apply Nat2Z.inj. rewrite Nat2Z.inj_div, Nat2Z.inj_add. cbn [Z.of_nat].
  change (Z.pos (Pos.of_succ_nat 13)) with 14%Z.
  change (Z.pos (Pos.of_succ_nat 14)) with 15%Z.
  set (n := Z.of_nat (length l)).
  assert (Hn : (0 <= n)%Z) by (unfold n; lia).
  rewrite Z2Nat.id.
  - pose proof (Z.div_mod (- n) 15) as D1.
    pose proof (Z.mod_pos_bound (- n) 15) as B1.
    pose proof (Z.div_mod (n + 14) 15) as D2.
    pose proof (Z.mod_pos_bound (n + 14) 15) as B2. lia.
  - pose proof (Z.div_mod (- n) 15) as D1.
    pose proof (Z.mod_pos_bound (- n) 15) as B1. lia.
Qed.

Lemma nPages_bounds {A : Type} (l : list A) :
  (length l <= Cash.nPages l * 15 < length l + 15)%nat.
Proof.
  rewrite nPages_div.
  pose proof (Nat.div_mod_eq (length l + 14) 15) as D.
  pose proof (Nat.mod_upper_bound (length l + 14) 15) as B. lia.
Qed.

Lemma firstn_plus {A : Type} (n m : nat) (l : list A) :
  firstn (n + m) l = firstn n l ++ firstn m (skipn n l).
Proof.
  revert l. induction n as [|n IH]; intros l; [reflexivity|].
  destruct l as [|x l]; cbn [Nat.add firstn skipn app].
  - rewrite firstn_nil. reflexivity.
  - rewrite IH. reflexivity.
Qed.

Lemma currentRecords_window {A : Type} (l : list A) (k : nat) :
  Cash.currentRecords l (S k) = firstn 15 (skipn (k * 15) l).
Proof.
  unfold Cash.currentRecords, Cash.slice, Cash.recordsPerPage. cbv zeta.
  replace (S k * 15 - 15)%nat with (k * 15)%nat by lia.
  replace (S k * 15 - k * 15)%nat with 15%nat by lia. reflexivity.
Qed.

Lemma pages_upto {A : Type} (l : list A) (k : nat) :
  concat (map (Cash.currentRecords l) (seq 1 k)) = firstn (k * 15) l.
Proof.
  induction k as [|k IH]; [reflexivity|].
  rewrite seq_S, map_app, concat_app, IH. cbn [Nat.add map concat].
  rewrite app_nil_r, currentRecords_window.
  replace (S k * 15)%nat with (k * 15 + 15)%nat by lia.
  symmetry. apply firstn_plus.
Qed.

End PageFacts.

(** X17. The pages 1 to [nPages] of the cash table, one after the
    other, are the records: none is left out and none shown twice. *)
Theorem X17_pages_partition_the_records :
  forall (records : list CashTransaction.t),
    concat (map (Cash.currentRecords records) (seq 1 (Cash.nPages records)))
    = records.
Proof.
  intros records. rewrite pages_upto. apply firstn_all2.
  apply (nPages_bounds records).
Qed.

(** X18. A page from 1 to [nPages] shows at least one record and at
    most 15, and every page before the last shows 15. *)
Theorem X18_page_sizes :
  forall (records : list CashTransaction.t) (page : nat),
    (1 <= page <= Cash.nPages records)%nat ->
    (1 <= length (Cash.currentRecords records page) <= 15)%nat
    /\ ((page < Cash.nPages records)%nat ->
        length (Cash.currentRecords records page) = 15%nat).
Proof.
  intros records page [H1 H2].
  destruct page as [|k]; [lia|].
  rewrite currentRecords_window, length_firstn, length_skipn.
  pose proof (nPages_bounds records) as B.
  split; [|intros H3]; nia.
Qed.

(** 31 records make three pages; the third shows one record. *)
Lemma X18_witness_31_records :
  let t := CashTransaction.mk (Q2Qc 1) INCOME SALES_REVENUE PAID
             (Date.mk 2024 2 5 0) in
  Cash.nPages (repeat t 31) = 3%nat
  /\ length (Cash.currentRecords (repeat t 31) 3) = 1%nat
  /\ (1 <= length (Cash.currentRecords (repeat t 31) 2) <= 15)%nat
  /\ ((2 < Cash.nPages (repeat t 31))%nat ->
      length (Cash.currentRecords (repeat t 31) 2) = 15%nat).
Proof.
  intros t.
  split; [reflexivity|]. split; [reflexivity|].
  apply (@X18_page_sizes (repeat t 31) 2).
  split; [lia|]. vm_compute. lia.
Defined.

(** X19. Starting from a page of the table, the buttons for the next
    and the previous page never leave the pages 1 to [nPages]; on the
    last page the first does nothing, on page 1 the second. *)
Theorem X19_page_buttons_stay_in_range :
  forall (page n : nat),
    (1 <= page <= n)%nat ->
    (1 <= Cash.nextPage page n <= n)%nat
    /\ (1 <= Cash.prevPage page <= n)%nat
    /\ Cash.nextPage n n = n
    /\ Cash.prevPage 1 = 1%nat.
Proof.
  intros page n [H1 H2]. unfold Cash.nextPage, Cash.prevPage.
  rewrite !Nat.ltb_irrefl.
  destruct (Nat.ltb_spec page n), (Nat.ltb_spec 1 page); lia.
Qed.

Lemma X19_witness_page_2_of_3 :
  (1 <= Cash.nextPage 2 3 <= 3)%nat
  /\ (1 <= Cash.prevPage 2 <= 3)%nat
  /\ Cash.nextPage 3 3 = 3%nat
  /\ Cash.prevPage 1 = 1%nat.
Proof.
  apply (@X19_page_buttons_stay_in_range 2 3). lia.
Defined.

(** ** Sorting *)

Section SortFacts.

Local Open Scope js_scope.

Variable A : Type.
Variable cmp : A -> A -> number.

Lemma insertSorted_Permutation (x : A) (l : list A) :
  Permutation (JSArray.insertSorted cmp x l) (x :: l).
Proof.
  induction l as [|y r IH]; cbn [JSArray.insertSorted]; [reflexivity|].
  destruct (cmp x y >? (ofZ 0)); [|reflexivity].
  rewrite IH. apply perm_swap.
Qed.

Lemma sort_Permutation (l : list A) : Permutation (JSArray.sort cmp l) l.
Proof.
  induction l as [|x l IH]; [reflexivity|].
  change (JSArray.sort cmp (x :: l))
    with (JSArray.insertSorted cmp x (JSArray.sort cmp l)).
  rewrite insertSorted_Permutation. constructor. exact IH.
Qed.

(** [P] holds of the elements of the array, [le] is the order the
    comparison function stands for on them. *)
Variable P : A -> Prop.
Variable le : A -> A -> Prop.
Hypothesis le_trans :
  forall x y z, P x -> P y -> P z -> le x y -> le y z -> le x z.
Hypothesis after_le :
  forall x y, P x -> P y -> (cmp x y >? (ofZ 0)) = true -> le y x.
Hypothesis before_le :
  forall x y, P x -> P y -> (cmp x y >? (ofZ 0)) = false -> le x y.

Lemma insertSorted_sorted (x : A) (l : list A) :
  P x -> Forall P l -> StronglySorted le l ->
  StronglySorted le (JSArray.insertSorted cmp x l).
Proof.
  intros Hx Hl Hs. induction Hs as [|y r Hr IH Hy];
    cbn [JSArray.insertSorted].
  - constructor; constructor.
  - inversion Hl as [|? ? Py Pr]; subst.
    destruct (cmp x y >? (ofZ 0)) eqn:E.
    + constructor; [exact (IH Pr)|].
      apply (Permutation_Forall
               (Permutation_sym (insertSorted_Permutation x r))).
      constructor; [exact (after_le Hx Py E) | exact Hy].
    + constructor; [constructor; assumption|].
      constructor; [exact (before_le Hx Py E)|].
      rewrite Forall_forall in *. intros z Hz.
      apply (@le_trans x y z); auto.
Qed.

Lemma sort_sorted (l : list A) :
  Forall P l -> StronglySorted le (JSArray.sort cmp l).
Proof.
  induction 1 as [|x l Hx Hl IH]; [constructor|].
  change (JSArray.sort cmp (x :: l))
    with (JSArray.insertSorted cmp x (JSArray.sort cmp l)).
  apply insertSorted_sorted; [exact Hx | | exact IH].
  apply sort_Forall, Hl.
Qed.

Lemma filter_all (f : A -> bool) (l : list A) :
  (forall x, f x = true) -> filter f l = l.
Proof.
  intros H. induction l as [|x l IH]; cbn [filter]; [reflexivity|].
  rewrite H, IH. reflexivity.
Qed.

(** The first [n] of the sorted array and what [slice] leaves out. *)
Lemma ranking_and_rest (n : nat) (l : list A) :
  Forall P l ->
  exists rest,
    Permutation (JSArray.slice0 n (JSArray.sort cmp l) ++ rest) l
    /\ StronglySorted le (JSArray.slice0 n (JSArray.sort cmp l) ++ rest)
    /\ length (JSArray.slice0 n (JSArray.sort cmp l))
       = Nat.min n (length l).
Proof.
  intros Hl. exists (skipn n (JSArray.sort cmp l)).
  unfold JSArray.slice0. rewrite firstn_skipn.
  split; [apply sort_Permutation|].
  split; [apply sort_sorted, Hl|].
  rewrite length_firstn, (Permutation_length (sort_Permutation l)).
  reflexivity.
Qed.

End SortFacts.

Section NumberOrder.

Local Open Scope js_scope.

Lemma sub_gt_zero (a b : Qc) :
  (Fin b - Fin a >? (ofZ 0)) = Qcltb a b.
Proof.
  unfold gtb, sub. cbn [neg add ltb ofZ].
  apply eq_iff_eq_true. rewrite !Qcltb_lt.
  change (Q2Qc (inject_Z 0)) with 0%Qc.
  rewrite (Qclt_minus_iff a b). reflexivity.
Qed.

Lemma descending_after (x y : number) :
  isFinite x = true -> isFinite y = true ->
  (y - x >? (ofZ 0)) = true -> (y >=? x) = true.
Proof.
  intros Hx Hy. apply isFinite_inv in Hx as [a ->].
  apply isFinite_inv in Hy as [b ->].
  rewrite sub_gt_zero, Qcltb_lt. unfold geb. cbn [leb].
  rewrite Qcleb_le. apply Qclt_le_weak.
Qed.

Lemma descending_before (x y : number) :
  isFinite x = true -> isFinite y = true ->
  (y - x >? (ofZ 0)) = false -> (x >=? y) = true.
Proof.
  intros Hx Hy. apply isFinite_inv in Hx as [a ->].
  apply isFinite_inv in Hy as [b ->].
  rewrite sub_gt_zero, Qcltb_negb_leb, negb_false_iff. unfold geb.
  cbn [leb]. auto.
Qed.

Lemma geb_trans (x y z : number) :
  isFinite x = true -> isFinite y = true -> isFinite z = true ->
  (x >=? y) = true -> (y >=? z) = true -> (x >=? z) = true.
Proof.
  intros Hx Hy Hz. apply isFinite_inv in Hx as [a ->].
  apply isFinite_inv in Hy as [b ->]. apply isFinite_inv in Hz as [d ->].
  unfold geb. cbn [leb]. rewrite !Qcleb_le. intros H1 H2.
  exact (Qcle_trans _ _ _ H2 H1).
Qed.

Lemma Qcle_inject (a b : Z) :
  (Q2Qc (inject_Z a) <= Q2Qc (inject_Z b))%Qc <-> (a <= b)%Z.
Proof.
  unfold Qcle. cbn [this Q2Qc]. rewrite !Qred_correct, <- Zle_Qle.
  reflexivity.
Qed.

End NumberOrder.

(** X20. The table of the cash view shows the transactions of the
    month that pass the two filters, each one once, the newest first. *)
Theorem X20_filteredTransactions_newest_first :
  forall transactions c typeFilter statusFilter,
    Permutation
      (Cash.filteredTransactions transactions c typeFilter statusFilter)
      (filter
         (fun t =>
            match typeFilter with
            | Some ty => TransactionType_beq (CashTransaction.type t) ty
            | None => true
            end
            && match statusFilter with
               | Some st =>
                   TransactionStatus_beq (CashTransaction.status t) st
               | None => true
               end)
         (Cash.transactionsForCompetency transactions c))
    /\ StronglySorted
         (fun a b =>
            (Date.getTime (CashTransaction.timestamp b)
             <= Date.getTime (CashTransaction.timestamp a))%Z)
         (Cash.filteredTransactions transactions c typeFilter statusFilter).
Proof.
  intros transactions c typeFilter statusFilter.
  unfold Cash.filteredTransactions. cbv zeta. split.
  - rewrite sort_Permutation.
    destruct typeFilter as [ty|], statusFilter as [st|];
      rewrite ?filter_filter_andb.
    + rewrite (filter_ext _ _ (fun t => andb_comm _ _)). reflexivity.
    + rewrite (filter_ext _ _ (fun t => andb_true_r _)). reflexivity.
    + reflexivity.
    + rewrite filter_all by reflexivity. reflexivity.
  - apply (@sort_sorted _ _ (fun _ => True)); try (intros; exact I).
    + intros x y z _ _ _ H1 H2. lia.
    + intros x y _ _. unfold ofZ. rewrite sub_gt_zero, Qcltb_lt.
      intros H. apply (proj1 (Qcle_inject _ _)), Qclt_le_weak, H.
    + intros x y _ _. unfold ofZ.
      rewrite sub_gt_zero, Qcltb_negb_leb, negb_false_iff, Qcleb_le.
      exact (proj1 (Qcle_inject _ _)).
    + apply Forall_forall. intros; exact I.
Qed.

(** X14. For a month of a year from 100 on and transactions dated on
    the calendar, the date range of the dashboard and the year-and-month
    test of the cash view select the same transactions: the list of the
    dashboard is a rearrangement of the array of the cash view, as the
    filter leaves it and as the table of the view sorts it in place when
    both of its filters are on ['All']. *)
Theorem X14_dashboard_and_cash_select_the_same_month :
  forall transactions year month,
    (100 <= year)%Z -> (1 <= month <= 12)%Z ->
    forallb (fun t => Spec.validDate (CashTransaction.timestamp t))
      transactions = true ->
    Permutation
      (Dashboard.transactionsThisMonth transactions (Some (year, month)))
      (Cash.transactionsForCompetency transactions (Some (year, month)))
    /\ Permutation
         (Dashboard.transactionsThisMonth transactions (Some (year, month)))
         (Cash.filteredTransactions transactions (Some (year, month))
            None None).
Proof.
  intros transactions year month Hy Hm Hv.
  assert (W : Dashboard.transactionsThisMonth transactions (Some (year, month))
              = Cash.transactionsForCompetency transactions
                  (Some (year, month))).
  { unfold Dashboard.transactionsThisMonth, Cash.transactionsForCompetency.
    apply filter_ext_in. intros t Ht.
    apply inMonth_by_fields; try assumption.
    rewrite forallb_forall in Hv. apply Hv, Ht. }
  rewrite W. split; [reflexivity|].
  unfold Cash.filteredTransactions. cbv zeta.
  symmetry. apply sort_Permutation.
Qed.

(** March 2024: a rent of 9 March, a rent of 5 March and a salary of
    April; the dashboard lists the two rents as they come, the table of
    the cash view the newer one first. *)
Lemma X14_witness_march_2024 :
  let rent9 := CashTransaction.mk (Q2Qc 1000) EXPENSE RENT PAID
                 (Date.mk 2024 2 9 0) in
  let rent5 := CashTransaction.mk (Q2Qc 1000) EXPENSE RENT PAID
                 (Date.mk 2024 2 5 0) in
  let salary := CashTransaction.mk (Q2Qc 2500) EXPENSE SALARY PAID
                  (Date.mk 2024 3 1 0) in
  Dashboard.transactionsThisMonth [rent5; rent9; salary] (Some (2024, 3)%Z)
  = [rent5; rent9]
  /\ Cash.filteredTransactions [rent5; rent9; salary] (Some (2024, 3)%Z)
       None None
     = [rent9; rent5]
  /\ Permutation
       (Dashboard.transactionsThisMonth [rent5; rent9; salary]
          (Some (2024, 3)%Z))
       (Cash.transactionsForCompetency [rent5; rent9; salary]
          (Some (2024, 3)%Z))
  /\ Permutation
       (Dashboard.transactionsThisMonth [rent5; rent9; salary]
          (Some (2024, 3)%Z))
       (Cash.filteredTransactions [rent5; rent9; salary] (Some (2024, 3)%Z)
          None None).
Proof.
  intros rent9 rent5 salary.
  split; [reflexivity|]. split; [vm_compute; reflexivity|].
  apply (@X14_dashboard_and_cash_select_the_same_month
           [rent5; rent9; salary] 2024 3); [lia | lia | reflexivity].
Defined.

(** X21. The ranking of the most sold products, followed by the
    products it leaves out, holds the entries of the sales map, each
    one once, by falling quantity; it shows 10 of them, or all when
    there are fewer. *)
Theorem X21_top10SoldProducts_ranks_the_sales_map :
  forall ticketSales products c,
  exists rest,
    Permutation
      (map (fun a => (TopProduct.id a, TopProduct.quantitySold a))
         (Dashboard.top10SoldProducts ticketSales products c ++ rest))
      (Dashboard.salesMap ticketSales c)
    /\ StronglySorted
         (fun a b =>
            (TopProduct.quantitySold a >=? TopProduct.quantitySold b)%js
            = true)
         (Dashboard.top10SoldProducts ticketSales products c ++ rest)
    /\ length (Dashboard.top10SoldProducts ticketSales products c)
       = Nat.min 10 (length (Dashboard.salesMap ticketSales c)).
Proof.
  intros ticketSales products c. unfold Dashboard.top10SoldProducts.
  set (entry := fun '(productId, quantitySold) => TopProduct.mk _ _ _ _ _).
  destruct (@ranking_and_rest TopProduct.t
              (fun a b =>
                 (TopProduct.quantitySold b - TopProduct.quantitySold a)%js)
              (fun a => isFinite (TopProduct.quantitySold a) = true)
              (fun a b =>
                 (TopProduct.quantitySold a >=? TopProduct.quantitySold b)%js
                 = true)
              (fun x y z Hx Hy Hz => @geb_trans _ _ _ Hx Hy Hz)
              (fun x y Hx Hy => @descending_after _ _ Hx Hy)
              (fun x y Hx Hy => @descending_before _ _ Hx Hy)
              10%nat (map entry (Dashboard.salesMap ticketSales c)))
    as (rest & H1 & H2 & H3).
  - apply Forall_map.
    pose proof (productSalesMap_finite
                  (Dashboard.salesThisMonth ticketSales c)) as Hm.
    fold (Dashboard.salesMap ticketSales c) in Hm.
    induction Hm as [|[k v] m Hv Hm IH]; constructor; [exact Hv | exact IH].
  - exists rest. split; [|split; [exact H2|]].
    + rewrite (Permutation_map _ H1), map_map.
      rewrite <- (map_id (Dashboard.salesMap ticketSales c)) at 2.
      erewrite map_ext; [reflexivity|]. intros [k v]. reflexivity.
    + rewrite H3, length_map. reflexivity.
Qed.

(** X22. The ranking of the sales peaks, followed by the days it
    leaves out, holds the days of the month with their totals, each
    one once, by falling total; it shows 5 of them, or all when there
    are fewer. *)
Theorem X22_top5SalesPeaks_ranks_the_days :
  forall toLocaleDateString ticketSales c,
  exists rest,
    Permutation
      (map (fun a => (SalesPeak.date a, SalesPeak.total a))
         (Dashboard.top5SalesPeaks toLocaleDateString ticketSales c ++ rest))
      (Dashboard.salesByDay toLocaleDateString ticketSales c)
    /\ StronglySorted
         (fun a b => (SalesPeak.total a >=? SalesPeak.total b)%js = true)
         (Dashboard.top5SalesPeaks toLocaleDateString ticketSales c ++ rest)
    /\ length (Dashboard.top5SalesPeaks toLocaleDateString ticketSales c)
       = Nat.min 5
           (length (Dashboard.salesByDay toLocaleDateString ticketSales c)).
Proof.
  intros toLocaleDateString ticketSales c. unfold Dashboard.top5SalesPeaks.
  set (entry := fun '(date, total) => SalesPeak.mk date total).
  destruct (@ranking_and_rest SalesPeak.t
              (fun a b => (SalesPeak.total b - SalesPeak.total a)%js)
              (fun a => isFinite (SalesPeak.total a) = true)
              (fun a b => (SalesPeak.total a >=? SalesPeak.total b)%js = true)
              (fun x y z Hx Hy Hz => @geb_trans _ _ _ Hx Hy Hz)
              (fun x y Hx Hy => @descending_after _ _ Hx Hy)
              (fun x y Hx Hy => @descending_before _ _ Hx Hy)
              5%nat
              (map entry
                 (Dashboard.salesByDay toLocaleDateString ticketSales c)))
    as (rest & H1 & H2 & H3).
  - apply Forall_map.
    pose proof (salesByDay_finite toLocaleDateString ticketSales c) as Hm.
    induction Hm as [|[k v] m Hv Hm IH]; constructor; [exact Hv | exact IH].
  - exists rest. split; [|split; [exact H2|]].
    + rewrite (Permutation_map _ H1), map_map.
      rewrite <- (map_id (Dashboard.salesByDay toLocaleDateString
                            ticketSales c)) at 2.
      erewrite map_ext; [reflexivity|]. intros [k v]. reflexivity.
    + rewrite H3, length_map. reflexivity.
Qed.

(** X23. The ranking of the lowest turnover, followed by the products
    it leaves out, holds one entry for each product with a stock above
    zero, each one once: the id and the name of the product, the
    quantity sold, the stock and, as turnover ratio, the quantity sold
    over the stock.  The entries come by rising turnover ratio, and the
    ranking shows 10 of them, or all when there are fewer. *)
Theorem X23_top10LowestTurnoverProducts_ranks_the_stocked :
  forall ticketSales products c,
  exists rest,
    Permutation
      (Dashboard.top10LowestTurnoverProducts ticketSales products c ++ rest)
      (map
         (fun p =>
            TopProduct.mk (Product.id p) (Product.name p)
              (orZero
                 (JSMap.get (Product.id p)
                    (Dashboard.salesMap ticketSales c)))
              (Fin (Product.stock p))
              (Some
                 (orZero
                    (JSMap.get (Product.id p)
                       (Dashboard.salesMap ticketSales c))
                  / Fin (Product.stock p))%js))
         (filter (fun p => (Fin (Product.stock p) >? ofZ 0)%js) products))
    /\ StronglySorted
         (fun a b =>
            match TopProduct.turnoverRatio a, TopProduct.turnoverRatio b with
            | Some ra, Some rb => (ra <=? rb)%js = true
            | _, _ => False
            end)
         (Dashboard.top10LowestTurnoverProducts ticketSales products c
          ++ rest)
    /\ length (Dashboard.top10LowestTurnoverProducts ticketSales products c)
       = Nat.min 10
           (length
              (filter (fun p => (Fin (Product.stock p) >? ofZ 0)%js)
                 products)).
Proof.
  intros ticketSales products c.
  unfold Dashboard.top10LowestTurnoverProducts.
  set (entry := fun p : Product.t => TopProduct.mk _ _ _ _ _).
  set (stocked := filter _ products).
  destruct (@ranking_and_rest TopProduct.t
              (fun a b => (Dashboard.ratioOf a - Dashboard.ratioOf b)%js)
              (fun a =>
                 exists r,
                   TopProduct.turnoverRatio a = Some r
                   /\ isFinite r = true)
              (fun a b =>
                 match TopProduct.turnoverRatio a,
                       TopProduct.turnoverRatio b with
                 | Some ra, Some rb => (ra <=? rb)%js = true
                 | _, _ => False
                 end))
    with (n := 10%nat) (l := map entry stocked)
    as (rest & H1 & H2 & H3).
  - intros x y z (rx & Ex & Hx) (ry & Ey & Hy) (rz & Ez & Hz).
    rewrite Ex, Ey, Ez. intros A B. exact (@geb_trans _ _ _ Hz Hy Hx B A).
  - intros x y (rx & Ex & Hx) (ry & Ey & Hy). unfold Dashboard.ratioOf.
    rewrite Ex, Ey. exact (@descending_after _ _ Hy Hx).
  - intros x y (rx & Ex & Hx) (ry & Ey & Hy). unfold Dashboard.ratioOf.
    rewrite Ex, Ey. exact (@descending_before _ _ Hy Hx).
  - apply Forall_map. apply Forall_forall. intros p Hp.
    apply filter_In in Hp as [_ Hp].
    eexists. split; [reflexivity|].
    apply div_finite; auto.
    apply orZero_finite, get_finite, productSalesMap_finite.
  - exists rest. split; [exact H1|]. split; [exact H2|].
    rewrite H3, length_map. reflexivity.
Qed.

(** ** The stock level summary *)

Section StockSummaryFacts.

Local Open Scope js_scope.

Lemma increment_total (s : StockLevelSummary.t) (st : ProductStatus) :
  (StockLevelSummary.ruptura (Dashboard.increment s st)
   + StockLevelSummary.risco (Dashboard.increment s st)
   + StockLevelSummary.seguranca (Dashboard.increment s st)
   + StockLevelSummary.excesso (Dashboard.increment s st)
   = StockLevelSummary.ruptura s + StockLevelSummary.risco s
     + StockLevelSummary.seguranca s + StockLevelSummary.excesso s + 1)%Z.
Proof.
  destruct s as [ru ri se ex], st; cbn; lia.
Qed.

Lemma increment_fold {A : Type} (f : A -> ProductStatus) (l : list A)
  (s : StockLevelSummary.t) :
  let r := fold_left (fun s p => Dashboard.increment s (f p)) l s in
  (StockLevelSummary.ruptura r + StockLevelSummary.risco r
   + StockLevelSummary.seguranca r + StockLevelSummary.excesso r
   = StockLevelSummary.ruptura s + StockLevelSummary.risco s
     + StockLevelSummary.seguranca s + StockLevelSummary.excesso s
     + Z.of_nat (length l))%Z.
Proof.
  cbv zeta. revert s. induction l as [|p l IH]; intros s;
    cbn [fold_left length]; [lia|].
  rewrite IH, increment_total. lia.
Qed.

End StockSummaryFacts.

(** X24. The four counters of the stock level summary add up to the
    number of products: every product is counted under one level. *)
Theorem X24_stockLevelSummary_counts_every_product :
  forall ticketSales products c now,
    (StockLevelSummary.ruptura
       (Dashboard.stockLevelSummary ticketSales products c now)
     + StockLevelSummary.risco
         (Dashboard.stockLevelSummary ticketSales products c now)
     + StockLevelSummary.seguranca
         (Dashboard.stockLevelSummary ticketSales products c now)
     + StockLevelSummary.excesso
         (Dashboard.stockLevelSummary ticketSales products c now))%Z
    = Z.of_nat (length products).
Proof.
  intros ticketSales products c now. unfold Dashboard.stockLevelSummary.
  rewrite (increment_fold
             (fun p =>
                Dashboard.stockLevelStatus (Fin (Product.stock p))
                  (orZero
                     (JSMap.get (Product.id p)
                        (Dashboard.salesMap ticketSales c)))
                  (Dashboard.daysPassed c now) (Dashboard.daysInMonth c))
             products (StockLevelSummary.mk 0 0 0 0)).
  reflexivity.
Qed.

(** ** The maps of quantities and of day totals *)

Section MapFacts.

Local Open Scope js_scope.

Lemma streq_refl (a : jsstring) : streq a a = true.
Proof. apply streq_eq. reflexivity. Qed.

Lemma get_set_same (k : jsstring) (v : number) (m : JSMap.t) :
  JSMap.get k (JSMap.set k v m) = Some v.
Proof.
  induction m as [|[k0 x] r IH]; cbn [JSMap.set JSMap.get].
  - rewrite streq_refl. reflexivity.
  - destruct (streq k0 k) eqn:E; cbn [JSMap.get]; rewrite E;
      [reflexivity | exact IH].
Qed.

Lemma get_set_other (k k' : jsstring) (v : number) (m : JSMap.t) :
  streq k k' = false -> JSMap.get k' (JSMap.set k v m) = JSMap.get k' m.
Proof.
  intros N. induction m as [|[k0 x] r IH]; cbn [JSMap.set JSMap.get].
  - rewrite N. reflexivity.
  - destruct (streq k0 k) eqn:E; cbn [JSMap.get].
    + apply streq_eq in E. subst k0. rewrite N. reflexivity.
    + destruct (streq k0 k'); [reflexivity | exact IH].
Qed.

Lemma orZero_Fin (q : Qc) : orZero (Some (Fin q)) = Fin q.
Proof.
  unfold orZero, truthy. destruct (Qceqb q 0) eqn:E; cbn [negb];
    [|reflexivity].
  apply Qceqb_eq in E. subst q. reflexivity.
Qed.

(** What the loop over entries [(key, amount)] leaves under a key. *)
Lemma bump_fold_get (key : jsstring) (entries : list (jsstring * Qc))
  (m : JSMap.t) (a : Qc) :
  orZero (JSMap.get key m) = Fin a ->
  orZero
    (JSMap.get key
       (fold_left
          (fun m e =>
             JSMap.set (fst e) (orZero (JSMap.get (fst e) m) + Fin (snd e))
               m)
          entries m))
  = Fin (a + Spec.tally key entries).
Proof.
  revert m a. induction entries as [|[k q] r IH]; intros m a Ha;
    cbn [fold_left fst snd].
  - rewrite Ha. unfold Spec.tally. cbn [fold_right].
    apply (f_equal Fin). ring.
  - unfold Spec.tally. cbn [fold_right fst snd]. fold (Spec.tally key r).
    destruct (streq k key) eqn:E.
    + apply streq_eq in E. subst k.
      rewrite (IH _ (a + q)%Qc).
      * apply (f_equal Fin). ring.
      * rewrite get_set_same, Ha. cbn [add]. apply orZero_Fin.
    + rewrite (IH _ a).
      * apply (f_equal Fin). ring.
      * rewrite get_set_other by exact E. exact Ha.
Qed.

Lemma productSalesMap_lines (sales : list TicketSale.t) :
  productSalesMap sales
  = fold_left
      (fun m e =>
         JSMap.set (fst e) (orZero (JSMap.get (fst e) m) + Fin (snd e)) m)
      (Spec.productLines sales) [].
Proof.
  unfold productSalesMap, Spec.productLines. generalize (@nil (jsstring * number)).
  induction sales as [|sale sales IH]; intros m;
    cbn [fold_left flat_map]; [reflexivity|].
  rewrite fold_left_app, IH. f_equal.
  generalize (TicketSale.items sale) as items. clear. intros items.
  revert m. induction items as [|item items IH]; intros m;
    cbn [fold_left flat_map]; [reflexivity|].
  rewrite fold_left_app, IH. f_equal.
  destruct (SaleItem.type item); reflexivity.
Qed.


End MapFacts.

(** X25. What the sales map holds for a product is the sum of the
    quantities of the product lines of the tickets with its id; a
    product that is on no ticket reads as zero. *)
Theorem X25_productSalesMap_adds_the_quantities :
  forall (sales : list TicketSale.t) (productId : jsstring),
    orZero (JSMap.get productId (productSalesMap sales))
    = Fin (Spec.tally productId (Spec.productLines sales)).
Proof.
  intros sales productId. rewrite productSalesMap_lines.
  rewrite (@bump_fold_get productId (Spec.productLines sales) [] 0%Qc)
    by reflexivity.
  apply (f_equal Fin). ring.
Qed.


(** ** E-mail addresses *)

Section RegexFacts.

Lemma seq_spec (a b : Regex.t) (s : jsstring) :
  Spec.Matches (Regex.Seq a b) s
  <-> exists u v, s = u ++ v /\ Spec.Matches a u /\ Spec.Matches b v.
Proof.
  split.
  - intros H. inversion H; subst. eauto.
  - intros (u & v & -> & Hu & Hv). exact (Spec.MSeq Hu Hv).
Qed.

Lemma class_spec (p : N -> bool) (s : jsstring) :
  Spec.Matches (Regex.Class p) s <-> exists c, s = [c] /\ p c = true.
Proof.
  split.
  - intros H. inversion H; subst. eauto.
  - intros (c & -> & Hc). constructor. exact Hc.
Qed.

Lemma alt_spec (a b : Regex.t) (s : jsstring) :
  Spec.Matches (Regex.Alt a b) s <-> Spec.Matches a s \/ Spec.Matches b s.
Proof.
  split.
  - intros H. inversion H; subst; auto.
  - intros [H|H]; [apply Spec.MAltL | apply Spec.MAltR]; exact H.
Qed.

Lemma nullable_spec (r : Regex.t) :
  Regex.nullable r = true <-> Spec.Matches r [].
Proof.
  induction r as [| |p|a IHa b IHb|a IHa b IHb|a IHa]; cbn [Regex.nullable].
  - split; [discriminate | intros H; inversion H].
  - split; [constructor | reflexivity].
  - split; [discriminate | intros H; inversion H].
  - rewrite andb_true_iff, IHa, IHb, seq_spec. split.
    + intros [Ha Hb]. exists [], []. auto.
    + intros (u & v & E & Hu & Hv). symmetry in E.
      apply app_eq_nil in E as [-> ->]. auto.
  - rewrite orb_true_iff, IHa, IHb, alt_spec. reflexivity.
  - split; [constructor | reflexivity].
Qed.

Lemma star_cons_inv (a : Regex.t) (c : N) (s : jsstring) :
  Spec.Matches (Regex.Star a) (c :: s) ->
  exists u v,
    s = u ++ v /\ Spec.Matches a (c :: u) /\ Spec.Matches (Regex.Star a) v.
Proof.
  intros H. remember (Regex.Star a) as r eqn:Er.
  remember (c :: s) as w eqn:Ew. revert Er Ew.
  induction H as [| | | | | |a' u v Hu _ Hv IHv]; try discriminate.
  intros Er Ew. injection Er as ->.
  destruct u as [|x u].
  - apply IHv; [reflexivity | exact Ew].
  - cbn [app] in Ew. injection Ew as -> <-. exists u, v. auto.
Qed.

Lemma derivative_spec (r : Regex.t) (c : N) (s : jsstring) :
  Spec.Matches (Regex.derivative c r) s <-> Spec.Matches r (c :: s).
Proof.
  revert s.
  induction r as [| |p|a IHa b IHb|a IHa b IHb|a IHa]; intros s;
    cbn [Regex.derivative].
  - split; intros H; inversion H.
  - split; intros H; inversion H.
  - rewrite class_spec. destruct (p c) eqn:E; split.
    + intros H. inversion H; subst. eauto.
    + intros (x & Ex & _). injection Ex as <- ->. constructor.
    + intros H. inversion H.
    + intros (x & Ex & Hx). injection Ex as <- ->. congruence.
  - assert (L : Spec.Matches (Regex.Seq (Regex.derivative c a) b) s ->
                Spec.Matches (Regex.Seq a b) (c :: s)).
    { intros H. apply seq_spec in H as (u & v & -> & Hu & Hv).
      apply IHa in Hu. exact (Spec.MSeq Hu Hv). }
    assert (R : Spec.Matches (Regex.Seq a b) (c :: s) ->
                (Regex.nullable a = true
                 /\ Spec.Matches (Regex.derivative c b) s)
                \/ Spec.Matches (Regex.Seq (Regex.derivative c a) b) s).
    { intros H. apply seq_spec in H as (u & v & E & Hu & Hv).
      destruct u as [|x u]; cbn [app] in E.
      - subst v. left. split; [apply nullable_spec, Hu | apply IHb, Hv].
      - injection E as <- ->. right. apply IHa in Hu.
        exact (Spec.MSeq Hu Hv). }
    destruct (Regex.nullable a) eqn:Na; split.
    + intros H. apply alt_spec in H as [H|H]; [auto|].
      apply nullable_spec in Na.
      apply (Spec.MSeq (u := []) Na). apply IHb. assumption.
    + intros H. apply alt_spec. destruct (R H) as [[_ Hb]|Hs]; auto.
    + exact L.
    + intros H. destruct (R H) as [[N _]|Hs]; [discriminate N | exact Hs].
  - rewrite !alt_spec, IHa, IHb. reflexivity.
  - split.
    + intros H. apply seq_spec in H as (u & v & -> & Hu & Hv).
      apply IHa in Hu. exact (Spec.MStarCons Hu Hv).
    + intros H. apply star_cons_inv in H as (u & v & -> & Hu & Hv).
      apply IHa in Hu. exact (Spec.MSeq Hu Hv).
Qed.

Lemma test_spec (r : Regex.t) (s : jsstring) :
  Regex.test r s = true <-> Spec.Matches r s.
Proof.
  unfold Regex.test. revert r.
  induction s as [|c s IH]; intros r; cbn [fold_left].
  - apply nullable_spec.
  - rewrite IH. apply derivative_spec.
Qed.

Lemma star_class_spec (p : N -> bool) (s : jsstring) :
  Spec.Matches (Regex.Star (Regex.Class p)) s <-> forallb p s = true.
Proof.
  split.
  - intros H. remember (Regex.Star (Regex.Class p)) as r eqn:Er.
    induction H as [| | | | | |a' u v Hu _ Hv IHv]; try discriminate;
      [reflexivity|].
    injection Er as ->. inversion Hu; subst. cbn [app forallb].
    rewrite IHv by reflexivity. rewrite andb_true_r. assumption.
  - induction s as [|c s IH]; cbn [forallb]; [constructor|].
    rewrite andb_true_iff. intros [Hc Hs].
    apply (Spec.MStarCons (u := [c])); [constructor; exact Hc | exact (IH Hs)].
Qed.

Lemma plus_class_spec (p : N -> bool) (s : jsstring) :
  Spec.Matches (Regex.Plus (Regex.Class p)) s
  <-> negb (isEmpty s) && forallb p s = true.
Proof.
  unfold Regex.Plus. rewrite seq_spec. split.
  - intros (u & v & -> & Hu & Hv). apply class_spec in Hu as (c & -> & Hc).
    apply star_class_spec in Hv. cbn. rewrite Hc, Hv. reflexivity.
  - destruct s as [|c s]; [discriminate|]. cbn [isEmpty negb andb forallb].
    rewrite andb_true_iff. intros [Hc Hs]. exists [c], s.
    split; [reflexivity|]. split; [constructor; exact Hc|].
    apply star_class_spec, Hs.
Qed.

Lemma emailRegex_spec (s : jsstring) :
  Regex.test emailRegex s = true
  <-> exists l a b,
        s = l ++ [64%N] ++ a ++ [46%N] ++ b
        /\ Spec.addressPart l = true
        /\ Spec.addressPart a = true
        /\ Spec.addressPart b = true.
Proof.
  rewrite test_spec. unfold emailRegex, Spec.addressPart. split.
  - intros H.
    apply seq_spec in H as (l & r1 & -> & Hl & H).
    apply seq_spec in H as (at1 & r2 & -> & Hat & H).
    apply seq_spec in H as (a & r3 & -> & Ha & H).
    apply seq_spec in H as (dot & b & -> & Hdot & Hb).
    apply class_spec in Hat as (x & -> & Hx). apply N.eqb_eq in Hx. subst x.
    apply class_spec in Hdot as (y & -> & Hy). apply N.eqb_eq in Hy. subst y.
    apply plus_class_spec in Hl, Ha, Hb. exists l, a, b. auto.
  - intros (l & a & b & -> & Hl & Ha & Hb).
    apply plus_class_spec in Hl, Ha, Hb.
    apply Spec.MSeq; [exact Hl|].
    apply Spec.MSeq; [constructor; reflexivity|].
    apply Spec.MSeq; [exact Ha|].
    apply Spec.MSeq; [constructor; reflexivity | exact Hb].
Qed.

End RegexFacts.

(** X29. [validateEmail] accepts an address exactly when, between the
    white space around it, it reads [local@domain.rest], where each of
    the three parts is not empty and holds neither white space nor an
    [@]. *)
Theorem X29_validateEmail_accepts_local_at_domain_dot_rest :
  forall email,
    validateEmail email = true
    <-> exists l a b,
          trim email = l ++ [64%N] ++ a ++ [46%N] ++ b
          /\ Spec.addressPart l = true
          /\ Spec.addressPart a = true
          /\ Spec.addressPart b = true.
Proof.
  intros email. unfold validateEmail.
  destruct email as [|c email]; cbn [isEmpty].
  - split; [discriminate|].
    intros (l & a & b & E & Hl & _). destruct l; discriminate.
  - apply emailRegex_spec.
Qed.
